(** * Sell-target-forward dashboard: the loss model, the scenario
      generators, the monthly simulation and the hedge ratio

    A shallow embedding of the computational parts of
    [DerivativesCaseStudy.py].

    Numbers.  The script computes with Python [float] and [int] values.
    They are modelled here as exact rationals ([Q]): every arithmetic
    operator is the exact one, rounding to binary64 is not modelled.
    Python's true division [/] raises [ZeroDivisionError] on a zero
    divisor, for [int] and [float] alike; this is kept, so every function
    that divides returns a [result].  Equalities between computed numbers
    are stated with [==] (equality of rationals) unless the code returns a
    literal, where Leibniz equality is used. *)

From Stdlib Require Import String QArith Qabs ZArith List Bool Lia Lqa.
Import ListNotations.

Open Scope Q_scope.

(** ** The fragment of Python the script relies on *)

Module Py.

(** An exception is identified by the name of its class. *)
Definition exn := string.

Definition ZeroDivisionError : exn := "ZeroDivisionError"%string.

(** The outcome of evaluating an expression: a value, or a raised
    exception that propagates to the caller. *)
Inductive result (A : Type) : Type :=
| Ok (v : A)
| Raised (e : exn).

Arguments Ok {A} v.
Arguments Raised {A} e.

Definition bind {A B : Type} (m : result A) (k : A -> result B) : result B :=
  match m with
  | Ok v => k v
  | Raised e => Raised e
  end.

(** [x / y]: true division. *)
Definition truediv (x y : Q) : result Q :=
  if Qeq_bool y 0 then Raised ZeroDivisionError else Ok (x / y).

(** [[f(x) for x in xs]] where [f] may raise: elements are evaluated
    from left to right and the first exception aborts the comprehension. *)
Fixpoint comprehension {A B : Type} (f : A -> result B) (xs : list A)
  : result (list B) :=
  match xs with
  | [] => Ok []
  | x :: xs' =>
      bind (f x) (fun y =>
      bind (comprehension f xs') (fun ys => Ok (y :: ys)))
  end.

(** [range(a, b)]. *)
Definition range (a b : Z) : list Z :=
  List.map (fun k => (a + Z.of_nat k)%Z) (seq 0 (Z.to_nat (b - a))).

(** [enumerate(xs)], counting from 0. *)
Definition enumerate {A : Type} (xs : list A) : list (Z * A) :=
  combine (List.map Z.of_nat (seq 0 (length xs))) xs.

End Py.

Import Py.

Declare Scope py_scope.
Delimit Scope py_scope with py.
Notation "x <- m ;; k" := (bind m (fun x => k))
  (at level 61, m at next level, right associativity) : py_scope.
Open Scope py_scope.

(** ** LossModel: [calculate_stf_losses] and [calculate_percentage_loss] *)

Module LossModel.

(** [calculate_stf_losses], with the division operator it uses taken as
    an argument, so that one can say which divisions a call evaluates. *)
Definition calculate_stf_losses_with (div : Q -> Q -> result Q)
    (notional_value initial_rate current_rate strike_price
     months_remaining : Q) : result Q :=
  if Qle_bool current_rate strike_price then Ok 0
  else
    let loss_brl :=
      notional_value * 2 * months_remaining * (strike_price - current_rate) in
    loss_usd <- div loss_brl current_rate ;;
    Ok loss_usd.

Definition calculate_stf_losses := calculate_stf_losses_with truediv.

Definition calculate_percentage_loss_with (div : Q -> Q -> result Q)
    (current_rate strike_price months_remaining : Q) : result Q :=
  if Qle_bool current_rate strike_price then Ok 0
  else
    percentage_loss <-
      div (2 * months_remaining * (strike_price - current_rate) * 100)
          current_rate ;;
    Ok percentage_loss.

Definition calculate_percentage_loss :=
  calculate_percentage_loss_with truediv.

(** The "Sell Target Forward Simulator" section: the two calls made with
    the full number of remaining months. *)
Definition simulator_section
    (notional_value initial_rate strike_price current_rate : Q)
    (contract_duration months_elapsed : Z) : result (Q * Q) :=
  let months_remaining := inject_Z (contract_duration - months_elapsed) in
  loss_usd <- calculate_stf_losses notional_value initial_rate current_rate
                strike_price months_remaining ;;
  percentage_loss <- calculate_percentage_loss current_rate strike_price
                       months_remaining ;;
  Ok (loss_usd, percentage_loss).

End LossModel.

Import LossModel.

(** ** ScenarioGenerator: the [exchange_rates] of the "Market Scenario
       Analysis" section *)

Module Scenario.

(** The four choices of the [scenario_type] radio button: "Gradual Change",
    "Sudden Shock", "Typical Pre-2008 Pattern", "2008 Crisis Pattern". *)
Inductive scenario_type : Type :=
| GradualChange
| SuddenShock
| TypicalPre2008Pattern
| CrisisPattern2008.

(** [months = list(range(1, 13))] *)
Definition months : list Z := range 1 13.

(** [shock_month] is the value of the "Month of Shock" slider; it is read
    by the "Sudden Shock" branch only. *)
Definition exchange_rates (scenario : scenario_type) (shock_month : Z)
    (initial_rate final_rate : Q) : result (list Q) :=
  match scenario with
  | GradualChange =>
      comprehension
        (fun i =>
           q <- truediv ((final_rate - initial_rate) * inject_Z (i - 1)) 11 ;;
           Ok (initial_rate + q))
        months
  | SuddenShock =>
      Ok (List.map
            (fun i => if (i <? shock_month)%Z then initial_rate
                      else final_rate)
            months)
  | TypicalPre2008Pattern =>
      let start_rate := 2.2 in
      let end_rate := 1.6 in
      comprehension
        (fun i =>
           q <- truediv ((start_rate - end_rate) * inject_Z (i - 1)) 11 ;;
           Ok (start_rate - q))
        months
  | CrisisPattern2008 =>
      let pre_crisis_months := 8%Z in
      let pre_crisis_rates :=
        List.map (fun i => initial_rate - 0.02 * inject_Z (i - 1))
                 (range 1 (pre_crisis_months + 1)) in
      crisis_rates <-
        comprehension
          (fun i =>
             q <- truediv
                    ((final_rate - initial_rate)
                     * inject_Z (i - pre_crisis_months))
                    (inject_Z (12 - pre_crisis_months)) ;;
             Ok (initial_rate + q))
          (range (pre_crisis_months + 1) 13) ;;
      Ok (pre_crisis_rates ++ crisis_rates)
  end.

(** The rate of month [i] (months count from 1) in a list of rates. *)
Definition rate_of_month (rates : list Q) (i : Z) : Q :=
  nth (Z.to_nat (i - 1)) rates 0.

(** Straight line through [(k, a)] and [(n, b)], evaluated at month [i]. *)
Definition interpolate (a b : Q) (k n i : Z) : Q :=
  a + (b - a) * inject_Z (i - k) / inject_Z (n - k).

(** The "crisis reversal" pattern in the words of the specification, for
    a duration of 12 months: a drift of 0.02 per month over the first 8
    months, then a straight line from the value at month 8 up to the end
    rate. *)
Definition crisis_reversal_as_specified (start_rate end_rate : Q)
    (rates : list Q) : Prop :=
  (forall i, (1 <= i <= 8)%Z ->
     rate_of_month rates i == start_rate - 0.02 * inject_Z (i - 1)) /\
  (forall i, (9 <= i <= 12)%Z ->
     rate_of_month rates i ==
     interpolate (rate_of_month rates 8) end_rate 8 12 i).

End Scenario.

Import Scenario.

(** ** ContractSimulator: the monthly loop and the data frame *)

Module Simulation.

(** The two variables the loop updates. *)
Record loop_state : Type := mk_loop_state {
  monthly_losses_usd : list Q;
  cumulative_losses_usd : Q
}.

(** One iteration of [for i, rate in enumerate(exchange_rates)]. *)
Definition loop_body (notional_value initial_rate strike_price : Q)
    (st : loop_state) (item : Z * Q) : result loop_state :=
  let '(i, rate) := item in
  let months_remaining := (12 - i)%Z in
  monthly_loss <-
    calculate_stf_losses notional_value initial_rate rate strike_price 1 ;;
  in_millions <- truediv monthly_loss 1000000 ;;
  Ok {| monthly_losses_usd := monthly_losses_usd st ++ [in_millions];
        cumulative_losses_usd := cumulative_losses_usd st + monthly_loss |}.

(** A [for] loop whose body may raise. *)
Fixpoint for_each {S A : Type} (body : S -> A -> result S) (st : S)
    (xs : list A) : result S :=
  match xs with
  | [] => Ok st
  | x :: xs' => st' <- body st x ;; for_each body st' xs'
  end.

Definition monthly_loop (notional_value initial_rate strike_price : Q)
    (exchange_rates : list Q) : result loop_state :=
  for_each (loop_body notional_value initial_rate strike_price)
           {| monthly_losses_usd := []; cumulative_losses_usd := 0 |}
           (enumerate exchange_rates).

(** [np.cumsum]: the running sums, accumulated from left to right. *)
Fixpoint cumsum_from (acc : Q) (xs : list Q) : list Q :=
  match xs with
  | [] => []
  | x :: xs' => (acc + x) :: cumsum_from (acc + x) xs'
  end.

Definition cumsum (xs : list Q) : list Q :=
  match xs with
  | [] => []
  | x :: xs' => x :: cumsum_from x xs'
  end.

(** The four columns of [df]. *)
Record DataFrame : Type := mk_DataFrame {
  Month : list Z;
  Exchange_Rate : list Q;
  Monthly_Loss : list Q;
  Cumulative_Loss : list Q
}.

Definition ValueError : exn := "ValueError"%string.

(** [pd.DataFrame({...})] from columns given as lists: all of them must
    have the same length. *)
Definition make_DataFrame (month : list Z) (rate monthly cumulative : list Q)
    : result DataFrame :=
  if ((length rate =? length month)%nat
      && (length monthly =? length month)%nat
      && (length cumulative =? length month)%nat)%bool
  then Ok (mk_DataFrame month rate monthly cumulative)
  else Raised ValueError.

(** The rows of a data frame. *)
Definition rows (df : DataFrame) : list (Z * Q * Q * Q) :=
  combine (combine (combine (Month df) (Exchange_Rate df)) (Monthly_Loss df))
          (Cumulative_Loss df).

(** The computation of the section from the rates on: the loop, the total
    in millions, and the data frame. *)
Definition analyse (notional_value strike_price initial_rate : Q)
    (exchange_rates : list Q) : result (DataFrame * Q) :=
  st <- monthly_loop notional_value initial_rate strike_price
          exchange_rates ;;
  cumulative_losses_usd_millions <-
    truediv (cumulative_losses_usd st) 1000000 ;;
  df <- make_DataFrame months exchange_rates (monthly_losses_usd st)
          (cumsum (monthly_losses_usd st)) ;;
  Ok (df, cumulative_losses_usd_millions).

(** The whole section, from the widgets' values. *)
Definition market_scenario_analysis (notional_value strike_price
    initial_rate final_rate : Q) (scenario : scenario_type)
    (shock_month : Z) : result (DataFrame * Q) :=
  rates <- exchange_rates scenario shock_month initial_rate final_rate ;;
  analyse notional_value strike_price initial_rate rates.

(** Sum of a list of numbers. *)
Definition total (xs : list Q) : Q := fold_right Qplus 0 xs.

End Simulation.

Import Simulation.

(** ** HedgeRatioModel: the "Optimal Hedging Analysis" tab *)

Module Hedge.

(** [delta = h1 + (h1 - h2) * (1/r - 1)] and
    [optimal_hedge = delta * ebit_value]. *)
Definition optimal_hedge_analysis (h1 h2 r ebit_value : Q)
    : result (Q * Q) :=
  inv_r <- truediv 1 r ;;
  let delta := h1 + (h1 - h2) * (inv_r - 1) in
  let optimal_hedge := delta * ebit_value in
  Ok (delta, optimal_hedge).

(** The error kind the specification names for a zero profit margin.  The
    script defines no exception class of its own. *)
Definition InvalidInput : exn := "InvalidInput"%string.

End Hedge.

Import Hedge.

(** ** More of Python and numpy: comparisons, [max], [min],
       [list.index], indexing, [np.linspace] *)

Module Builtins.

(** [x < y] and [x != y] on numbers. *)
Definition lt (x y : Q) : bool := negb (Qle_bool y x).

Definition ne (x y : Q) : bool := negb (Qeq_bool x y).

(** [max(a, b)]: the first argument unless the second is greater. *)
Definition max2 (a b : Q) : Q := if lt a b then b else a.

(** [min(xs)]: the running minimum is replaced by an item only when the
    item is smaller; an empty list raises [ValueError]. *)
Fixpoint min_from (best : Q) (xs : list Q) : Q :=
  match xs with
  | [] => best
  | x :: xs' => min_from (if lt x best then x else best) xs'
  end.

Definition min_of (xs : list Q) : result Q :=
  match xs with
  | [] => Raised ValueError
  | x :: xs' => Ok (min_from x xs')
  end.

(** [xs.index(v)]: the position of the first item equal to [v];
    [ValueError] when there is none. *)
Fixpoint index_from (pos : Z) (xs : list Q) (v : Q) : result Z :=
  match xs with
  | [] => Raised ValueError
  | x :: xs' =>
      if Qeq_bool x v then Ok pos else index_from (pos + 1)%Z xs' v
  end.

Definition index (xs : list Q) (v : Q) : result Z := index_from 0 xs v.

Definition IndexError : exn := "IndexError"%string.

(** [xs[k]]: a negative index counts from the end; an index out of range
    raises [IndexError]. *)
Definition getitem (xs : list Q) (k : Z) : result Q :=
  let n := Z.of_nat (length xs) in
  if ((0 <=? k) && (k <? n))%Z%bool then Ok (nth (Z.to_nat k) xs 0)
  else if ((- n <=? k) && (k <? 0))%Z%bool
       then Ok (nth (Z.to_nat (n + k)) xs 0)
       else Raised IndexError.

(** [np.linspace(start, stop, num)], end point included: [num] evenly
    spaced values, the [k]-th being [k * step + start] with
    [step = (stop - start) / (num - 1)], and the last one set to [stop]. *)
Definition linspace (start stop : Q) (num : nat) : list Q :=
  match num with
  | O => []
  | S O => [start]
  | S div =>
      let step := (stop - start) / inject_Z (Z.of_nat div) in
      List.map (fun k => inject_Z (Z.of_nat k) * step + start) (seq 0 div)
      ++ [stop]
  end.

End Builtins.

Import Builtins.

(** ** The displays of the "Sell Target Forward Simulator" section *)

Module SimulatorDisplay.

(** The "Exchange Rate Change" line: shown when the current rate differs
    from the initial one, with the magnitude of the change in percent and
    its direction. *)
Definition exchange_rate_change (current_rate initial_rate : Q)
    : result (option (Q * string)) :=
  if ne current_rate initial_rate then
    q <- truediv (current_rate - initial_rate) initial_rate ;;
    let pct_change := q * 100 in
    let change_direction :=
      if lt 0 pct_change then "depreciation"%string
      else "appreciation"%string in
    Ok (Some (Qabs pct_change, change_direction))
  else Ok None.

(** The "Loss (USD)" metric: "$0 / No Loss", or the loss in millions with
    its share of the notional value in percent. *)
Inductive loss_metric : Type :=
| NoLoss
| LossShown (millions percent_of_notional : Q).

Definition loss_metric_of (loss_usd notional_value : Q) : result loss_metric :=
  if Qeq_bool loss_usd 0 then Ok NoLoss
  else
    millions <- truediv loss_usd 1000000 ;;
    q <- truediv loss_usd notional_value ;;
    Ok (LossShown millions (q * 100)).

(** The "Formula" metric shows the calculation when the current rate is
    above the strike, and "No Loss (S <= X)" otherwise. *)
Definition formula_shows_calculation (current_rate strike_price : Q) : bool :=
  lt strike_price current_rate.

(** The "Loss Multiple" metric: the multiple of the notional value when
    the loss is negative, "0x" ([None]) otherwise. *)
Definition loss_multiple (loss_usd notional_value : Q) : result (option Q) :=
  if lt loss_usd 0 then
    multiple <- truediv loss_usd notional_value ;;
    Ok (Some multiple)
  else Ok None.

(** The "High Risk Exposure" warning is shown when this holds. *)
Definition high_risk_warning (percentage_loss : Q) : bool :=
  lt 50 percentage_loss.

Record simulator_display : Type := mk_simulator_display {
  shown_loss : loss_metric;
  shown_calculation : bool;
  shown_multiple : option Q;
  shown_warning : bool
}.

(** What the section shows for the values of its widgets: the three
    metrics and the warning.  The charts drawn in between are in
    [loss_profile]. *)
Definition simulator_results
    (notional_value initial_rate strike_price current_rate : Q)
    (contract_duration months_elapsed : Z) : result simulator_display :=
  r <- simulator_section notional_value initial_rate strike_price
         current_rate contract_duration months_elapsed ;;
  let loss_usd := fst r in
  let percentage_loss := snd r in
  metric <- loss_metric_of loss_usd notional_value ;;
  multiple <- loss_multiple loss_usd notional_value ;;
  Ok (mk_simulator_display metric
        (formula_shows_calculation current_rate strike_price)
        multiple
        (high_risk_warning percentage_loss)).

(** The data of the "Loss Profile Across Exchange Rates" charts: 100 rates
    around the current one, and the loss (in millions) and the percentage
    loss at each of them. *)
Definition loss_profile
    (notional_value initial_rate strike_price current_rate
     months_remaining : Q) : result (list Q * list Q * list Q) :=
  let exchange_rates :=
    linspace (max2 1.0 (current_rate * 0.7)) (current_rate * 1.3) 100 in
  losses <-
    comprehension
      (fun rate =>
         loss <- calculate_stf_losses notional_value initial_rate rate
                   strike_price months_remaining ;;
         truediv loss 1000000)
      exchange_rates ;;
  percentage_losses <-
    comprehension
      (fun rate =>
         calculate_percentage_loss rate strike_price months_remaining)
      exchange_rates ;;
  Ok (exchange_rates, losses, percentage_losses).

End SimulatorDisplay.

Import SimulatorDisplay.

(** ** The metrics of the "Market Scenario Analysis" section *)

Module ScenarioMetrics.

Record scenario_metrics : Type := mk_scenario_metrics {
  total_percent_of_notional : Q;
  max_monthly_loss : Q;
  max_loss_month : Z
}.

(** The "Total Loss" metric's share of the notional value, and the
    "Maximum Monthly Loss" metric: [min(monthly_losses_usd)] and the month
    [monthly_losses_usd.index(max_monthly_loss) + 1]. *)
Definition metrics_of (notional_value : Q) (st : loop_state)
    : result scenario_metrics :=
  q <- truediv (cumulative_losses_usd st) notional_value ;;
  max_monthly_loss <- min_of (monthly_losses_usd st) ;;
  pos <- index (monthly_losses_usd st) max_monthly_loss ;;
  Ok (mk_scenario_metrics (q * 100) max_monthly_loss (pos + 1)).

Definition scenario_metrics_of (notional_value strike_price initial_rate : Q)
    (exchange_rates : list Q) : result scenario_metrics :=
  st <- monthly_loop notional_value initial_rate strike_price
          exchange_rates ;;
  metrics_of notional_value st.

(** The loss quoted in the "Sudden Shock" insight:
    [monthly_losses_usd[shock_month-1]]. *)
Definition shock_month_loss (notional_value strike_price initial_rate
    final_rate : Q) (shock_month : Z) : result Q :=
  rates <- exchange_rates SuddenShock shock_month initial_rate final_rate ;;
  st <- monthly_loop notional_value initial_rate strike_price rates ;;
  getitem (monthly_losses_usd st) (shock_month - 1).

End ScenarioMetrics.

Import ScenarioMetrics.

(** ** The rest of the "Optimal Hedging Analysis" tab *)

Module HedgeStance.

(** The sensitivity chart: the optimal ratio at 100 profit margins from 5%
    to 50%. *)
Definition sensitivity_analysis (h1 h2 : Q) : result (list Q * list Q) :=
  let profit_margins := linspace 0.05 0.5 100 in
  delta_values <-
    comprehension
      (fun margin =>
         inv_margin <- truediv 1 margin ;;
         Ok (h1 + (h1 - h2) * (inv_margin - 1)))
      profit_margins ;;
  Ok (profit_margins, delta_values).

(** [hedge_ratio = actual_hedge_value / optimal_hedge if optimal_hedge > 0
    else 0], the actual hedge being entered in millions. *)
Definition hedge_ratio (actual_hedge optimal_hedge : Q) : result Q :=
  let actual_hedge_value := actual_hedge * 1000000 in
  if lt 0 optimal_hedge then truediv actual_hedge_value optimal_hedge
  else Ok 0.

(** The stance and its colour. *)
Definition hedging_stance (hedge_ratio : Q) : string * string :=
  if lt hedge_ratio 0.8 then
    ("Under-hedged", "orange")%string
  else if Qle_bool hedge_ratio 1.2 then
    ("Appropriately hedged", "green")%string
  else if Qle_bool hedge_ratio 2.0 then
    ("Moderately over-hedged", "yellow")%string
  else
    ("Significantly over-hedged (potential speculation)", "red")%string.

(** The colour given to the bar of the actual hedge. *)
Definition bar_color (hedge_ratio : Q) : string :=
  if lt hedge_ratio 0.8 then "orange"%string
  else if Qle_bool hedge_ratio 1.2 then "green"%string
  else if Qle_bool hedge_ratio 2.0 then "yellow"%string
  else "red"%string.

(** The comparison with the actual hedge, from the optimal amount on. *)
Definition compare_with_actual (actual_hedge optimal_hedge : Q)
    : result (Q * (string * string) * string) :=
  ratio <- hedge_ratio actual_hedge optimal_hedge ;;
  Ok (ratio, hedging_stance ratio, bar_color ratio).

End HedgeStance.

Import HedgeStance.

(** * Properties *)

(** ** Division and the two regimes *)

Lemma truediv_nonzero (x y : Q) : ~ y == 0 -> truediv x y = Ok (x / y).
Proof.
  intros Hy. unfold truediv.
  destruct (Qeq_bool y 0) eqn:E; [|reflexivity].
  apply Qeq_bool_eq in E. contradiction.
Qed.

Lemma truediv_zero (x y : Q) : y == 0 -> truediv x y = Raised ZeroDivisionError.
Proof.
  intros Hy. unfold truediv. now rewrite (Qeq_eq_bool _ _ Hy).
Qed.

Lemma no_loss_test (c s : Q) : c <= s -> Qle_bool c s = true.
Proof. apply Qle_bool_iff. Qed.

Lemma loss_test (c s : Q) : s < c -> Qle_bool c s = false.
Proof.
  intros H. destruct (Qle_bool c s) eqn:E; [|reflexivity].
  apply Qle_bool_iff in E. lra.
Qed.

Lemma loss_test_inv (c s : Q) : Qle_bool c s = false -> s < c.
Proof.
  intros E. apply Qnot_le_lt. intros H.
  apply Qle_bool_iff in H. congruence.
Qed.

Lemma stf_losses_loss_regime (n i c s t : Q) :
  s < c -> ~ c == 0 ->
  calculate_stf_losses n i c s t = Ok (n * 2 * t * (s - c) / c).
Proof.
  intros Hsc Hc. unfold calculate_stf_losses, calculate_stf_losses_with.
  rewrite (loss_test _ _ Hsc). cbv zeta.
  rewrite (truediv_nonzero _ _ Hc). reflexivity.
Qed.

Lemma percentage_loss_loss_regime (c s t : Q) :
  s < c -> ~ c == 0 ->
  calculate_percentage_loss c s t = Ok (2 * t * (s - c) * 100 / c).
Proof.
  intros Hsc Hc.
  unfold calculate_percentage_loss, calculate_percentage_loss_with.
  rewrite (loss_test _ _ Hsc).
  rewrite (truediv_nonzero _ _ Hc). reflexivity.
Qed.

Lemma stf_losses_skips_division (n i c s t : Q) :
  c <= s -> forall div, calculate_stf_losses_with div n i c s t = Ok 0.
Proof.
  intros H div. unfold calculate_stf_losses_with.
  now rewrite (no_loss_test _ _ H).
Qed.

(** With a positive strike the function returns in both regimes. *)
Lemma stf_losses_returns (n i c s t : Q) :
  0 < s -> exists v, calculate_stf_losses n i c s t = Ok v.
Proof.
  intros Hs. destruct (Qlt_le_dec s c) as [Hsc|Hcs].
  - eexists. apply stf_losses_loss_regime; lra.
  - exists 0. apply stf_losses_skips_division. exact Hcs.
Qed.

(** Signs of the two dividends in the loss regime. *)
Lemma loss_brl_nonpos (n t s c : Q) :
  0 <= n -> 0 <= t -> s < c -> n * 2 * t * (s - c) <= 0.
Proof.
  intros Hn Ht Hsc.
  assert (H1 : 0 <= n * t) by (apply Qmult_le_0_compat; assumption).
  assert (H2 : 0 <= (n * t) * (c - s)) by (apply Qmult_le_0_compat; lra).
  setoid_replace (n * 2 * t * (s - c)) with (- (2 * ((n * t) * (c - s))))
    by ring.
  lra.
Qed.

Lemma loss_brl_neg (n t s c : Q) :
  0 < n -> 0 < t -> s < c -> n * 2 * t * (s - c) < 0.
Proof.
  intros Hn Ht Hsc.
  assert (H1 : 0 < n * t) by (apply Qmult_lt_0_compat; assumption).
  assert (H2 : 0 < (n * t) * (c - s)) by (apply Qmult_lt_0_compat; lra).
  setoid_replace (n * 2 * t * (s - c)) with (- (2 * ((n * t) * (c - s))))
    by ring.
  lra.
Qed.

Lemma percentage_dividend_nonpos (t s c : Q) :
  0 <= t -> s < c -> 2 * t * (s - c) * 100 <= 0.
Proof.
  intros Ht Hsc.
  assert (H : 0 <= t * (c - s)) by (apply Qmult_le_0_compat; lra).
  setoid_replace (2 * t * (s - c) * 100) with (- (200 * (t * (c - s))))
    by ring.
  lra.
Qed.

Lemma percentage_dividend_neg (t s c : Q) :
  0 < t -> s < c -> 2 * t * (s - c) * 100 < 0.
Proof.
  intros Ht Hsc.
  assert (H : 0 < t * (c - s)) by (apply Qmult_lt_0_compat; lra).
  setoid_replace (2 * t * (s - c) * 100) with (- (200 * (t * (c - s))))
    by ring.
  lra.
Qed.

(** Order between two numerals. *)
Ltac q_order := unfold Qle, Qlt; simpl; lia.

(** A quotient with a positive divisor has the sign of its dividend. *)
Lemma Qdiv_neg_pos (a c : Q) : a < 0 -> 0 < c -> a / c < 0.
Proof.
  intros Ha Hc. apply Qlt_shift_div_r; [assumption|]. lra.
Qed.

Lemma Qdiv_nonpos_pos (a c : Q) : a <= 0 -> 0 < c -> a / c <= 0.
Proof.
  intros Ha Hc. apply Qle_shift_div_r; [assumption|]. lra.
Qed.

(** ** C2 *)

(** C2.  Whenever [current_rate <= strike_price], [calculate_stf_losses]
    and [calculate_percentage_loss] both return exactly [0], whatever the
    notional value, the initial rate and the number of months remaining. *)
Theorem no_loss_regime (n i c s t : Q) :
  c <= s ->
  calculate_stf_losses n i c s t = Ok 0 /\
  calculate_percentage_loss c s t = Ok 0.
Proof.
  intros H.
  unfold calculate_stf_losses, calculate_stf_losses_with,
    calculate_percentage_loss, calculate_percentage_loss_with.
  rewrite (no_loss_test _ _ H). split; reflexivity.
Qed.

Lemma no_loss_regime_witness :
  1.60 <= 1.65 /\
  calculate_stf_losses 15000000 1.60 1.60 1.65 12 = Ok 0 /\
  calculate_percentage_loss 1.60 1.65 12 = Ok 0.
Proof.
  split; [q_order | apply (no_loss_regime 15000000 1.60 1.60 1.65 12); q_order].
Defined.

(** ** C1 *)

(** The example of the specification evaluates to a negative loss and a
    negative percentage: neither is a magnitude, and the values are not
    [31,500,000] and [210]. *)
Lemma loss_example_is_signed :
  exists v p,
    calculate_stf_losses 15000000 1.60 2.00 1.65 6 = Ok v /\
    calculate_percentage_loss 2.00 1.65 6 = Ok p /\
    ~ 0 <= v /\ ~ 0 <= p /\ ~ v == 31500000 /\ ~ p == 210.
Proof.
  eexists; eexists.
  split; [vm_compute; reflexivity|].
  split; [vm_compute; reflexivity|].
  repeat split; intros H; vm_compute in H; try discriminate;
    apply H; reflexivity.
Qed.

(** C1 (amended).  In the loss regime ([current_rate > strike_price], with
    a positive current rate) [calculate_stf_losses] returns the signed
    amount [n * 2 * t * (X - S) / S] and [calculate_percentage_loss] returns
    [2 * t * (X - S) * 100 / S]; for a non-negative notional value and a
    non-negative number of months both are [<= 0], and strictly negative
    when notional and months are positive.  On the example of the
    specification they are [-31,500,000] and [-210]. *)
Theorem loss_regime_signed :
  (forall n i c s t : Q,
     s < c -> 0 < c -> 0 <= n -> 0 <= t ->
     exists v p,
       calculate_stf_losses n i c s t = Ok v /\
       calculate_percentage_loss c s t = Ok p /\
       v = n * 2 * t * (s - c) / c /\
       p = 2 * t * (s - c) * 100 / c /\
       v <= 0 /\ p <= 0 /\
       (0 < n -> 0 < t -> v < 0) /\
       (0 < t -> p < 0)) /\
  (exists v p,
     calculate_stf_losses 15000000 1.60 2.00 1.65 6 = Ok v /\
     calculate_percentage_loss 2.00 1.65 6 = Ok p /\
     v == -31500000 /\ p == -210).
Proof.
  split.
  - intros n i c s t Hsc Hc Hn Ht.
    assert (Hc0 : ~ c == 0) by lra.
    exists (n * 2 * t * (s - c) / c), (2 * t * (s - c) * 100 / c).
    split; [apply stf_losses_loss_regime; assumption|].
    split; [apply percentage_loss_loss_regime; assumption|].
    split; [reflexivity|]. split; [reflexivity|].
    split; [apply Qdiv_nonpos_pos;
              [apply loss_brl_nonpos; assumption | assumption]|].
    split; [apply Qdiv_nonpos_pos;
              [apply percentage_dividend_nonpos; assumption | assumption]|].
    split.
    + intros Hn' Ht'. apply Qdiv_neg_pos; [|assumption].
      apply loss_brl_neg; assumption.
    + intros Ht'. apply Qdiv_neg_pos; [|assumption].
      apply percentage_dividend_neg; assumption.
  - eexists; eexists.
    split; [vm_compute; reflexivity|].
    split; [vm_compute; reflexivity|].
    split; reflexivity.
Qed.

Lemma loss_regime_signed_witness :
  exists v p,
    calculate_stf_losses 15000000 1.60 2.00 1.65 6 = Ok v /\
    calculate_percentage_loss 2.00 1.65 6 = Ok p /\
    v = 15000000 * 2 * 6 * (1.65 - 2.00) / 2.00 /\
    p = 2 * 6 * (1.65 - 2.00) * 100 / 2.00 /\
    v <= 0 /\ p <= 0 /\
    (0 < 15000000 -> 0 < 6 -> v < 0) /\
    (0 < 6 -> p < 0).
Proof.
  apply (proj1 loss_regime_signed 15000000 1.60 2.00 1.65 6); q_order.
Defined.

(** ** C6 *)

(** With strike 1.65 and 6 months, raising the current rate from 2.0 to 2.2
    lowers the returned percentage (from -210 to -300): it does not
    increase. *)
Lemma percentage_loss_not_increasing :
  exists p1 p2,
    calculate_percentage_loss 2.0 1.65 6 = Ok p1 /\
    calculate_percentage_loss 2.2 1.65 6 = Ok p2 /\
    1.65 < 2.0 /\ 2.0 < 2.2 /\ 0 < 6 /\
    ~ p1 < p2.
Proof.
  eexists; eexists.
  split; [vm_compute; reflexivity|].
  split; [vm_compute; reflexivity|].
  split; [q_order|]. split; [q_order|]. split; [q_order|].
  intros H; vm_compute in H; discriminate.
Qed.

(** C6 (amended).  For a positive strike and a positive number of months
    remaining, the value returned by [calculate_percentage_loss] is negative
    and strictly decreasing as the current rate increases above the strike;
    it is its magnitude that strictly increases. *)
Theorem percentage_loss_strictly_decreasing (s t c1 c2 : Q) :
  0 < s -> 0 < t -> s < c1 -> c1 < c2 ->
  exists p1 p2,
    calculate_percentage_loss c1 s t = Ok p1 /\
    calculate_percentage_loss c2 s t = Ok p2 /\
    p2 < p1 /\ p1 < 0 /\ Qabs p1 < Qabs p2.
Proof.
  intros Hs Ht H1 H12.
  assert (Hc1 : 0 < c1) by lra. assert (Hc2 : 0 < c2) by lra.
  exists (2 * t * (s - c1) * 100 / c1), (2 * t * (s - c2) * 100 / c2).
  split; [apply percentage_loss_loss_regime; lra|].
  split; [apply percentage_loss_loss_regime; lra|].
  assert (Hdiff :
    2 * t * (s - c1) * 100 / c1 - 2 * t * (s - c2) * 100 / c2
    == 200 * ((t * s) * (c2 - c1)) / (c1 * c2)).
  { field. split; lra. }
  assert (Hpos : 0 < 200 * ((t * s) * (c2 - c1)) / (c1 * c2)).
  { apply Qlt_shift_div_l.
    - apply Qmult_lt_0_compat; assumption.
    - assert (0 < t * s) by (apply Qmult_lt_0_compat; assumption).
      assert (0 < (t * s) * (c2 - c1)) by (apply Qmult_lt_0_compat; lra).
      lra. }
  assert (Hlt : 2 * t * (s - c2) * 100 / c2 < 2 * t * (s - c1) * 100 / c1)
    by lra.
  assert (Hneg : 2 * t * (s - c1) * 100 / c1 < 0).
  { apply Qdiv_neg_pos; [|assumption].
    apply percentage_dividend_neg; assumption. }
  split; [exact Hlt|]. split; [exact Hneg|].
  rewrite (Qabs_neg (2 * t * (s - c1) * 100 / c1)) by lra.
  rewrite (Qabs_neg (2 * t * (s - c2) * 100 / c2)) by lra.
  lra.
Qed.

Lemma percentage_loss_strictly_decreasing_witness :
  exists p1 p2,
    calculate_percentage_loss 2.0 1.65 6 = Ok p1 /\
    calculate_percentage_loss 2.2 1.65 6 = Ok p2 /\
    p2 < p1 /\ p1 < 0 /\ Qabs p1 < Qabs p2.
Proof.
  apply (percentage_loss_strictly_decreasing 1.65 6 2.0 2.2); q_order.
Defined.

(** ** C7 *)

(** C7.  [initial_rate] never changes the value returned by
    [calculate_stf_losses]; and in the simulator section, which passes the
    same rates and months to both functions, the loss does not depend on
    the initial rate and the percentage depends neither on the notional
    value nor on the initial rate. *)
Theorem initial_rate_irrelevant :
  (forall n i i' c s t : Q,
     calculate_stf_losses n i c s t = calculate_stf_losses n i' c s t) /\
  (forall (n i i' s c : Q) (d e : Z),
     (r <- simulator_section n i s c d e ;; Ok (fst r)) =
     (r <- simulator_section n i' s c d e ;; Ok (fst r))) /\
  (forall (n n' i i' s c : Q) (d e : Z),
     (r <- simulator_section n i s c d e ;; Ok (snd r)) =
     (r <- simulator_section n' i' s c d e ;; Ok (snd r))).
Proof.
  split; [reflexivity|]. split; [reflexivity|].
  intros n n' i i' s c d e.
  unfold simulator_section, calculate_stf_losses, calculate_stf_losses_with,
    calculate_percentage_loss, calculate_percentage_loss_with.
  cbv zeta.
  destruct (Qle_bool c s); [reflexivity|].
  unfold truediv. destruct (Qeq_bool c 0); reflexivity.
Qed.

(** ** C10 *)

(** C10.  For a positive strike: when [current_rate <= strike_price]
    (a current rate of 0 included) [calculate_stf_losses] returns 0 whatever
    the division operator does, so no division is evaluated; the result
    only depends on how division behaves on divisors above the strike,
    which are positive; hence the function always returns a number and never
    raises [ZeroDivisionError]. *)
Theorem stf_losses_never_divides_by_zero (n i c s t : Q) :
  0 < s ->
  (c <= s ->
   forall div, calculate_stf_losses_with div n i c s t = Ok 0) /\
  (forall div x, calculate_stf_losses_with div n i 0 s x = Ok 0) /\
  (forall div,
     (forall x d, s < d -> 0 < d -> div x d = truediv x d) ->
     calculate_stf_losses_with div n i c s t = calculate_stf_losses n i c s t) /\
  (exists v, calculate_stf_losses n i c s t = Ok v) /\
  calculate_stf_losses n i c s t <> Raised ZeroDivisionError.
Proof.
  intros Hs.
  destruct (stf_losses_returns n i c s t Hs) as [v Hv].
  split; [|split; [|split; [|split]]].
  - intros Hcs div. apply stf_losses_skips_division. exact Hcs.
  - intros div x. apply stf_losses_skips_division. lra.
  - intros div Hdiv.
    unfold calculate_stf_losses, calculate_stf_losses_with.
    destruct (Qle_bool c s) eqn:E; [reflexivity|].
    apply loss_test_inv in E. cbv zeta.
    rewrite Hdiv by lra. reflexivity.
  - exists v. exact Hv.
  - rewrite Hv. discriminate.
Qed.

Lemma stf_losses_never_divides_by_zero_witness :
  (0 <= 1.65 ->
   forall div, calculate_stf_losses_with div 15000000 1.60 0 1.65 12 = Ok 0) /\
  (forall div x, calculate_stf_losses_with div 15000000 1.60 0 1.65 x = Ok 0) /\
  (forall div,
     (forall x d, 1.65 < d -> 0 < d -> div x d = truediv x d) ->
     calculate_stf_losses_with div 15000000 1.60 0 1.65 12 =
     calculate_stf_losses 15000000 1.60 0 1.65 12) /\
  (exists v, calculate_stf_losses 15000000 1.60 0 1.65 12 = Ok v) /\
  calculate_stf_losses 15000000 1.60 0 1.65 12 <> Raised ZeroDivisionError.
Proof.
  apply (stf_losses_never_divides_by_zero 15000000 1.60 0 1.65 12); q_order.
Defined.

(** ** Scenarios *)

Lemma months_are_1_to_12 : months = [1; 2; 3; 4; 5; 6; 7; 8; 9; 10; 11; 12]%Z.
Proof. reflexivity. Qed.

(** A month between 1 and 12 is one of the twelve. *)
Lemma month_cases (i : Z) :
  (1 <= i <= 12)%Z ->
  In i [1; 2; 3; 4; 5; 6; 7; 8; 9; 10; 11; 12]%Z.
Proof.
  intros H. simpl.
  assert (i = 1 \/ i = 2 \/ i = 3 \/ i = 4 \/ i = 5 \/ i = 6 \/ i = 7 \/
          i = 8 \/ i = 9 \/ i = 10 \/ i = 11 \/ i = 12)%Z as C by lia.
  repeat (destruct C as [C|C]; [subst i; tauto|]). subst i; tauto.
Qed.

Ltac each_month H :=
  apply month_cases in H; simpl in H;
  repeat (destruct H as [H|H]; [subst|]); [..|contradiction].

(** C4.  Each of the four patterns returns 12 rates; paired with [months]
    they form a path of 12 points whose month indices are 1, 2, ..., 12 in
    this order. *)
Theorem scenario_has_twelve_months (scenario : scenario_type)
    (shock_month : Z) (initial_rate final_rate : Q) :
  exists rates,
    exchange_rates scenario shock_month initial_rate final_rate = Ok rates /\
    length rates = 12%nat /\
    length (combine months rates) = 12%nat /\
    List.map fst (combine months rates)
    = [1; 2; 3; 4; 5; 6; 7; 8; 9; 10; 11; 12]%Z.
Proof.
  destruct scenario; eexists; (split; [reflexivity|]);
    repeat split; reflexivity.
Qed.

(** ** C8 *)

(** C8.  With the shock month between 1 and 12, the "Sudden Shock" pattern
    gives the initial rate to every month before the shock month and the
    final rate to every month from the shock month on; with rates 1.60 and
    2.00 and a shock in month 6, months 1 to 5 get 1.60 and months 6 to 12
    get 2.00. *)
Theorem sudden_shock_step :
  (forall (shock_month i : Z) (initial_rate final_rate : Q),
     (1 <= shock_month <= 12)%Z -> (1 <= i <= 12)%Z ->
     exists rates,
       exchange_rates SuddenShock shock_month initial_rate final_rate
       = Ok rates /\
       ((i < shock_month)%Z -> rate_of_month rates i = initial_rate) /\
       ((shock_month <= i)%Z -> rate_of_month rates i = final_rate)) /\
  exchange_rates SuddenShock 6 1.60 2.00
  = Ok [1.60; 1.60; 1.60; 1.60; 1.60;
        2.00; 2.00; 2.00; 2.00; 2.00; 2.00; 2.00].
Proof.
  split; [|reflexivity].
  intros shock_month i initial_rate final_rate Hs Hi.
  exists (List.map
            (fun i => if (i <? shock_month)%Z then initial_rate
                      else final_rate)
            [1; 2; 3; 4; 5; 6; 7; 8; 9; 10; 11; 12]%Z).
  split; [reflexivity|].
  split; intros Hlt; each_month Hi; unfold rate_of_month; simpl;
    repeat match goal with
    | |- context [(?a <? ?b)%Z] =>
        let E := fresh "E" in
        destruct (Z.ltb_spec a b) as [E|E]; try lia
    end; reflexivity.
Qed.

Lemma sudden_shock_step_witness :
  exists rates,
    exchange_rates SuddenShock 6 1.60 2.00 = Ok rates /\
    ((5 < 6)%Z -> rate_of_month rates 5 = 1.60) /\
    ((6 <= 5)%Z -> rate_of_month rates 5 = 2.00).
Proof.
  apply (proj1 sudden_shock_step 6%Z 5%Z 1.60 2.00); lia.
Defined.

(** ** C5 *)

Lemma crisis_pattern_unfolded (shock_month : Z) (a b : Q) :
  exchange_rates CrisisPattern2008 shock_month a b
  = Ok [a - 0.02 * inject_Z (1 - 1); a - 0.02 * inject_Z (2 - 1);
        a - 0.02 * inject_Z (3 - 1); a - 0.02 * inject_Z (4 - 1);
        a - 0.02 * inject_Z (5 - 1); a - 0.02 * inject_Z (6 - 1);
        a - 0.02 * inject_Z (7 - 1); a - 0.02 * inject_Z (8 - 1);
        a + (b - a) * inject_Z (9 - 8) / inject_Z (12 - 8);
        a + (b - a) * inject_Z (10 - 8) / inject_Z (12 - 8);
        a + (b - a) * inject_Z (11 - 8) / inject_Z (12 - 8);
        a + (b - a) * inject_Z (12 - 8) / inject_Z (12 - 8)].
Proof. reflexivity. Qed.

(** From 1.60 to 2.00 the pattern gives month 9 the rate 1.70, while the
    straight line from the value at month 8 (1.46) up to 2.00 passes
    through 1.595 at month 9. *)
Lemma crisis_pattern_not_from_month_8 :
  exists rates,
    exchange_rates CrisisPattern2008 6 1.60 2.00 = Ok rates /\
    rate_of_month rates 8 == 1.46 /\
    rate_of_month rates 9 == 1.70 /\
    interpolate (rate_of_month rates 8) 2.00 8 12 9 == 1.595 /\
    ~ crisis_reversal_as_specified 1.60 2.00 rates.
Proof.
  eexists. split; [apply crisis_pattern_unfolded|].
  split; [reflexivity|]. split; [reflexivity|]. split; [reflexivity|].
  intros [_ H]. specialize (H 9%Z ltac:(lia)).
  vm_compute in H. discriminate.
Qed.

(** C5 (amended).  The "2008 Crisis Pattern" gives months 1 to 8 the rates
    [initial_rate - 0.02 * (i - 1)] and months 9 to 12 the rates
    [initial_rate + (final_rate - initial_rate) * (i - 8) / 4]: the straight
    line that starts from the initial rate at month 8, not from the value
    [initial_rate - 0.14] that month 8 has, and reaches the final rate at
    month 12. *)
Theorem crisis_pattern_rates (initial_rate final_rate : Q)
    (shock_month i : Z) :
  (1 <= i <= 12)%Z ->
  exists rates,
    exchange_rates CrisisPattern2008 shock_month initial_rate final_rate
    = Ok rates /\
    ((i <= 8)%Z ->
     rate_of_month rates i = initial_rate - 0.02 * inject_Z (i - 1)) /\
    ((9 <= i)%Z ->
     rate_of_month rates i = interpolate initial_rate final_rate 8 12 i) /\
    rate_of_month rates 8 == initial_rate - 0.14 /\
    rate_of_month rates 12 == final_rate.
Proof.
  intros Hi. eexists. split; [apply crisis_pattern_unfolded|].
  split; [|split; [|split]].
  - intros H8. each_month Hi; try lia; reflexivity.
  - intros H9. each_month Hi; try lia; reflexivity.
  - unfold rate_of_month. simpl. ring.
  - unfold rate_of_month. simpl. field.
Qed.

Lemma crisis_pattern_rates_witness :
  exists rates,
    exchange_rates CrisisPattern2008 6 1.60 2.00 = Ok rates /\
    ((9 <= 8)%Z -> rate_of_month rates 9 = 1.60 - 0.02 * inject_Z (9 - 1)) /\
    ((9 <= 9)%Z -> rate_of_month rates 9 = interpolate 1.60 2.00 8 12 9) /\
    rate_of_month rates 8 == 1.60 - 0.14 /\
    rate_of_month rates 12 == 2.00.
Proof.
  apply (crisis_pattern_rates 1.60 2.00 6%Z 9%Z); lia.
Defined.

(** ** The monthly loop *)

Section MonthlyLoop.

Variables notional_value initial_rate strike_price : Q.
Hypothesis strike_positive : 0 < strike_price.

Let body := loop_body notional_value initial_rate strike_price.
Let loss_of (rate : Q) : result Q :=
  calculate_stf_losses notional_value initial_rate rate strike_price 1.

Lemma monthly_loss_returns (rate : Q) : exists loss, loss_of rate = Ok loss.
Proof. unfold loss_of. apply stf_losses_returns. exact strike_positive. Qed.

(** One iteration appends the month's loss, in millions, and adds the
    loss to the running total; the index is not used. *)
Lemma loop_body_step (st : loop_state) (k : Z) (rate loss : Q) :
  loss_of rate = Ok loss ->
  body st (k, rate)
  = Ok {| monthly_losses_usd := monthly_losses_usd st ++ [loss / 1000000];
          cumulative_losses_usd := cumulative_losses_usd st + loss |}.
Proof.
  unfold loss_of, body, loop_body. intros E. rewrite E. reflexivity.
Qed.

Lemma for_each_months (rates : list Q) :
  forall (idxs : list Z) (st : loop_state),
    length idxs = length rates ->
    exists losses,
      Forall2 (fun rate loss => loss_of rate = Ok loss) rates losses /\
      for_each body st (combine idxs rates)
      = Ok {| monthly_losses_usd :=
                monthly_losses_usd st
                ++ List.map (fun l => l / 1000000) losses;
              cumulative_losses_usd :=
                fold_left Qplus losses (cumulative_losses_usd st) |}.
Proof.
  induction rates as [|rate rates IH]; intros idxs st Hlen.
  - exists []. split; [constructor|].
    destruct idxs; [|discriminate]. simpl. rewrite app_nil_r.
    destruct st; reflexivity.
  - destruct idxs as [|k idxs]; [discriminate|].
    injection Hlen as Hlen.
    destruct (monthly_loss_returns rate) as [loss Hloss].
    destruct (IH idxs
                {| monthly_losses_usd :=
                     monthly_losses_usd st ++ [loss / 1000000];
                   cumulative_losses_usd :=
                     cumulative_losses_usd st + loss |} Hlen)
      as [losses [HF Hrun]].
    exists (loss :: losses). split; [constructor; assumption|].
    change (for_each body st (combine (k :: idxs) (rate :: rates)))
      with (st' <- body st (k, rate) ;;
            for_each body st' (combine idxs rates)).
    rewrite (loop_body_step st k rate loss Hloss).
    unfold bind at 1. rewrite Hrun. simpl. rewrite <- app_assoc. reflexivity.
Qed.

End MonthlyLoop.

(** ** Running sums *)

Lemma fold_left_Qplus_total (xs : list Q) :
  forall acc, fold_left Qplus xs acc == acc + total xs.
Proof.
  induction xs as [|x xs IH]; intros acc; simpl.
  - ring.
  - rewrite IH. ring.
Qed.

Lemma total_in_millions (losses : list Q) :
  total (List.map (fun l => l / 1000000) losses) * 1000000 == total losses.
Proof.
  induction losses as [|l losses IH]; simpl.
  - ring.
  - rewrite <- IH. field.
Qed.

Lemma cumsum_from_length (xs : list Q) :
  forall acc, length (cumsum_from acc xs) = length xs.
Proof. induction xs; intros; simpl; auto. Qed.

Lemma cumsum_length (xs : list Q) : length (cumsum xs) = length xs.
Proof. destruct xs; simpl; auto using cumsum_from_length. Qed.

Lemma cumsum_from_nth (xs : list Q) :
  forall acc m, (m < length xs)%nat ->
    nth m (cumsum_from acc xs) 0 == acc + total (firstn (S m) xs).
Proof.
  induction xs as [|x xs IH]; intros acc m Hm; simpl in Hm; [lia|].
  destruct m as [|m].
  - simpl. destruct xs; simpl; ring.
  - change (nth (S m) (cumsum_from acc (x :: xs)) 0)
      with (nth m (cumsum_from (acc + x) xs) 0).
    rewrite IH by lia.
    change (firstn (S (S m)) (x :: xs)) with (x :: firstn (S m) xs).
    simpl total. ring.
Qed.

(** Entry [m] of [cumsum xs] is the sum of the entries [0 .. m] of [xs]. *)
Lemma cumsum_nth (xs : list Q) (m : nat) :
  (m < length xs)%nat ->
  nth m (cumsum xs) 0 == total (firstn (S m) xs).
Proof.
  destruct xs as [|x xs]; simpl length; intros Hm; [lia|].
  destruct m as [|m].
  - simpl. destruct xs; simpl; ring.
  - change (nth (S m) (cumsum (x :: xs)) 0)
      with (nth m (cumsum_from x xs) 0).
    rewrite cumsum_from_nth by lia.
    change (firstn (S (S m)) (x :: xs)) with (x :: firstn (S m) xs).
    simpl total. reflexivity.
Qed.

Lemma Forall2_at {A B : Type} (R : A -> B -> Prop) (xs : list A)
    (ys : list B) (da : A) (db : B) :
  Forall2 R xs ys ->
  length xs = length ys /\
  forall m, (m < length xs)%nat -> R (nth m xs da) (nth m ys db).
Proof.
  induction 1 as [|x y xs ys Hxy HF [IHlen IH]]; simpl.
  - split; [reflexivity | intros m Hm; lia].
  - split; [congruence|]. intros [|m] Hm; [assumption|].
    apply IH. lia.
Qed.

Lemma nth_map_in_millions (losses : list Q) :
  forall m, (m < length losses)%nat ->
    nth m (List.map (fun l => l / 1000000) losses) 0
    = nth m losses 0 / 1000000.
Proof.
  induction losses as [|l losses IH]; intros m Hm; simpl in Hm; [lia|].
  destruct m as [|m]; [reflexivity|]. simpl. apply IH. lia.
Qed.

(** What the section computes from a path of 12 rates, in terms of the
    losses of the twelve calls. *)
Lemma analyse_unfolded (notional_value strike_price initial_rate : Q)
    (rates : list Q) :
  0 < strike_price -> length rates = 12%nat ->
  exists losses,
    Forall2
      (fun rate loss =>
         calculate_stf_losses notional_value initial_rate rate strike_price 1
         = Ok loss)
      rates losses /\
    analyse notional_value strike_price initial_rate rates
    = Ok (mk_DataFrame months rates
            (List.map (fun l => l / 1000000) losses)
            (cumsum (List.map (fun l => l / 1000000) losses)),
          fold_left Qplus losses 0 / 1000000).
Proof.
  intros Hs Hlen.
  destruct (for_each_months notional_value initial_rate strike_price Hs rates
              (List.map Z.of_nat (seq 0 (length rates)))
              {| monthly_losses_usd := []; cumulative_losses_usd := 0 |})
    as [losses [HF Hrun]].
  { now rewrite length_map, length_seq. }
  exists losses. split; [exact HF|].
  destruct (Forall2_at _ rates losses 0 0 HF) as [Hlen' _].
  simpl in Hrun.
  unfold analyse, monthly_loop, enumerate. rewrite Hrun.
  unfold bind at 1. simpl monthly_losses_usd. simpl cumulative_losses_usd.
  rewrite truediv_nonzero by (unfold Qeq; simpl; lia).
  unfold bind at 1. unfold make_DataFrame.
  rewrite cumsum_length, length_map, <- Hlen', Hlen. reflexivity.
Qed.

(** ** C3 *)

(** C3.  For a positive strike and a path of 12 rates the section returns
    a data frame in which the loss of each month is the value of
    [calculate_stf_losses] called with [months_remaining = 1] on that
    month's rate (divided by a million for display), whatever the position
    of the month, and the cumulative loss of a month is the sum of the
    monthly losses of the months up to it (position [m] of a column holds
    month [m + 1]); the reported total is the sum of all of them. *)
Theorem monthly_simulation (notional_value strike_price initial_rate : Q)
    (rates : list Q) :
  0 < strike_price -> length rates = 12%nat ->
  exists df total_millions,
    analyse notional_value strike_price initial_rate rates
    = Ok (df, total_millions) /\
    Month df = [1; 2; 3; 4; 5; 6; 7; 8; 9; 10; 11; 12]%Z /\
    Exchange_Rate df = rates /\
    length (Monthly_Loss df) = 12%nat /\
    length (Cumulative_Loss df) = 12%nat /\
    (forall m, (m < 12)%nat ->
       exists loss,
         calculate_stf_losses notional_value initial_rate (nth m rates 0)
           strike_price 1 = Ok loss /\
         nth m (Monthly_Loss df) 0 = loss / 1000000) /\
    (forall m, (m < 12)%nat ->
       nth m (Cumulative_Loss df) 0
       == total (firstn (S m) (Monthly_Loss df))) /\
    total_millions == total (Monthly_Loss df).
Proof.
  intros Hs Hlen.
  destruct (analyse_unfolded notional_value strike_price initial_rate rates
              Hs Hlen) as [losses [HF Hrun]].
  destruct (Forall2_at _ rates losses 0 0 HF) as [Hlen' Hnth].
  assert (Hml : length (List.map (fun l => l / 1000000) losses) = 12%nat).
  { rewrite length_map. congruence. }
  eexists; eexists. split; [exact Hrun|].
  simpl.
  split; [reflexivity|]. split; [reflexivity|]. split; [exact Hml|].
  split; [rewrite cumsum_length; exact Hml|].
  split; [|split].
  - intros m Hm. exists (nth m losses 0). split.
    + apply Hnth. lia.
    + apply nth_map_in_millions. lia.
  - intros m Hm. apply cumsum_nth. lia.
  - rewrite fold_left_Qplus_total.
    rewrite <- (total_in_millions losses). field.
Qed.

Lemma monthly_simulation_witness :
  exists df total_millions,
    analyse 15000000 1.65 1.60
      [1.60; 1.60; 1.60; 1.60; 1.60; 2.00; 2.00; 2.00; 2.00; 2.00; 2.00; 2.00]
    = Ok (df, total_millions) /\
    Month df = [1; 2; 3; 4; 5; 6; 7; 8; 9; 10; 11; 12]%Z /\
    Exchange_Rate df
    = [1.60; 1.60; 1.60; 1.60; 1.60; 2.00; 2.00; 2.00; 2.00; 2.00; 2.00; 2.00] /\
    length (Monthly_Loss df) = 12%nat /\
    length (Cumulative_Loss df) = 12%nat /\
    (forall m, (m < 12)%nat ->
       exists loss,
         calculate_stf_losses 15000000 1.60
           (nth m [1.60; 1.60; 1.60; 1.60; 1.60;
                   2.00; 2.00; 2.00; 2.00; 2.00; 2.00; 2.00] 0)
           1.65 1 = Ok loss /\
         nth m (Monthly_Loss df) 0 = loss / 1000000) /\
    (forall m, (m < 12)%nat ->
       nth m (Cumulative_Loss df) 0
       == total (firstn (S m) (Monthly_Loss df))) /\
    total_millions == total (Monthly_Loss df).
Proof.
  apply (monthly_simulation 15000000 1.65 1.60
           [1.60; 1.60; 1.60; 1.60; 1.60;
            2.00; 2.00; 2.00; 2.00; 2.00; 2.00; 2.00]);
    [q_order | reflexivity].
Defined.

(** ** The section from end to end *)

Lemma exchange_rates_returns (scenario : scenario_type) (shock_month : Z)
    (initial_rate final_rate : Q) :
  exists rates,
    exchange_rates scenario shock_month initial_rate final_rate = Ok rates /\
    length rates = 12%nat.
Proof.
  destruct scenario; eexists; split; reflexivity.
Qed.

(** X24.  For a positive strike the section returns a table of 12 rows,
    whatever the scenario, the rates and the notional value; its first two
    columns are the months and the rates of the scenario. *)
Lemma market_scenario_table (notional_value strike_price initial_rate
    final_rate : Q) (scenario : scenario_type) (shock_month : Z) :
  0 < strike_price ->
  exists rates df total_millions,
    exchange_rates scenario shock_month initial_rate final_rate = Ok rates /\
    market_scenario_analysis notional_value strike_price initial_rate
      final_rate scenario shock_month = Ok (df, total_millions) /\
    length (rows df) = 12%nat /\
    List.map (fun row => fst (fst row)) (rows df) = combine months rates.
Proof.
  intros Hs.
  destruct (exchange_rates_returns scenario shock_month initial_rate
              final_rate) as [rates [Hrates Hlen]].
  destruct (analyse_unfolded notional_value strike_price initial_rate rates
              Hs Hlen) as [losses [HF Hrun]].
  destruct (Forall2_at _ rates losses 0 0 HF) as [Hlen' _].
  exists rates. eexists; eexists. split; [exact Hrates|].
  split.
  { unfold market_scenario_analysis. rewrite Hrates. unfold bind at 1.
    exact Hrun. }
  assert (Hl : length losses = 12%nat) by congruence.
  clear HF Hrun Hrates Hlen'.
  do 13 (destruct rates as [|? rates]; try discriminate Hlen).
  do 13 (destruct losses as [|? losses]; try discriminate Hl).
  split; reflexivity.
Qed.

(** ** C9 *)

(** With a profit margin of 0 the computation stops on the division [1/r]:
    what reaches the caller is [ZeroDivisionError], not [InvalidInput]. *)
Lemma zero_margin_is_not_invalid_input :
  optimal_hedge_analysis 0.95 0.25 0 500000000 = Raised ZeroDivisionError /\
  optimal_hedge_analysis 0.95 0.25 0 500000000 <> Raised InvalidInput.
Proof.
  split; [reflexivity|]. vm_compute. discriminate.
Qed.

(** C9 (amended).  When the profit margin [r] is 0 the hedge computation
    fails with the [ZeroDivisionError] raised by [1/r], which propagates to
    the caller unchanged; there is no check of [r] and no [InvalidInput]
    error.  For a non-zero [r] it returns
    [delta = h1 + (h1 - h2) * (1/r - 1)] and [delta * ebit_value]. *)
Theorem zero_margin_raises_ZeroDivisionError (h1 h2 r ebit_value : Q) :
  (r == 0 ->
   optimal_hedge_analysis h1 h2 r ebit_value = Raised ZeroDivisionError) /\
  (~ r == 0 ->
   optimal_hedge_analysis h1 h2 r ebit_value
   = Ok (h1 + (h1 - h2) * (1 / r - 1),
         (h1 + (h1 - h2) * (1 / r - 1)) * ebit_value)).
Proof.
  unfold optimal_hedge_analysis. split; intros Hr.
  - rewrite (truediv_zero _ _ Hr). reflexivity.
  - rewrite (truediv_nonzero _ _ Hr). reflexivity.
Qed.

Lemma zero_margin_raises_ZeroDivisionError_witness :
  optimal_hedge_analysis 0.95 0.25 0 500000000 = Raised ZeroDivisionError.
Proof.
  apply (proj1 (zero_margin_raises_ZeroDivisionError 0.95 0.25 0 500000000)).
  reflexivity.
Defined.

(** The example of the reference model: shares 0.95 and 0.25, a margin of
    0.25 and an EBIT of 500 million give a ratio of 3.05 and a hedge of
    1,525 million. *)
Example hedge_ratio_example :
  exists delta optimal_hedge,
    optimal_hedge_analysis 0.95 0.25 0.25 500000000
    = Ok (delta, optimal_hedge) /\
    delta == 3.05 /\ optimal_hedge == 1525000000.
Proof.
  eexists; eexists. split; [vm_compute; reflexivity|].
  split; reflexivity.
Qed.

(** * Further properties of the loss model *)

Lemma percentage_loss_skips_division (c s t : Q) :
  c <= s -> calculate_percentage_loss c s t = Ok 0.
Proof.
  intros H. unfold calculate_percentage_loss, calculate_percentage_loss_with.
  now rewrite (no_loss_test _ _ H).
Qed.

(** The two results of a call with a positive strike, by regime. *)
Lemma loss_model_cases (n i c s t : Q) :
  0 < s ->
  (c <= s /\
   calculate_stf_losses n i c s t = Ok 0 /\
   calculate_percentage_loss c s t = Ok 0) \/
  (s < c /\
   calculate_stf_losses n i c s t = Ok (n * 2 * t * (s - c) / c) /\
   calculate_percentage_loss c s t = Ok (2 * t * (s - c) * 100 / c)).
Proof.
  intros Hs. destruct (Qlt_le_dec s c) as [Hsc|Hcs].
  - right. split; [assumption|]. split.
    + apply stf_losses_loss_regime; lra.
    + apply percentage_loss_loss_regime; lra.
  - left. split; [assumption|]. split.
    + apply stf_losses_skips_division; assumption.
    + apply percentage_loss_skips_division; assumption.
Qed.

Lemma loss_and_percentage (n i c s t : Q) :
  0 < s -> ~ n == 0 ->
  exists v p,
    calculate_stf_losses n i c s t = Ok v /\
    calculate_percentage_loss c s t = Ok p /\
    p == v / n * 100.
Proof.
  intros Hs Hn.
  destruct (loss_model_cases n i c s t Hs) as [[Hcs [Hv Hp]]|[Hsc [Hv Hp]]].
  - exists 0, 0. split; [exact Hv|]. split; [exact Hp|].
    field; repeat split; (assumption || lra).
  - eexists; eexists. split; [exact Hv|]. split; [exact Hp|].
    field; repeat split; (assumption || lra).
Qed.

(** X1.  The two functions agree: for a positive strike and a non-zero
    notional value, the loss divided by the notional value, in percent, is
    the percentage loss. *)
Theorem loss_matches_percentage (n i c s t : Q) :
  0 < s -> ~ n == 0 ->
  exists v p,
    calculate_stf_losses n i c s t = Ok v /\
    calculate_percentage_loss c s t = Ok p /\
    v / n * 100 == p.
Proof.
  intros Hs Hn.
  destruct (loss_model_cases n i c s t Hs) as [[Hcs [Hv Hp]]|[Hsc [Hv Hp]]].
  - exists 0, 0. split; [exact Hv|]. split; [exact Hp|].
    field. assumption.
  - eexists; eexists. split; [exact Hv|]. split; [exact Hp|].
    field. split; [lra | assumption].
Qed.

Lemma loss_matches_percentage_witness :
  exists v p,
    calculate_stf_losses 15000000 1.60 2.00 1.65 6 = Ok v /\
    calculate_percentage_loss 2.00 1.65 6 = Ok p /\
    v / 15000000 * 100 == p.
Proof.
  apply (loss_matches_percentage 15000000 1.60 2.00 1.65 6);
    [q_order | unfold Qeq; simpl; lia].
Defined.

(** X2.  The loss is linear in the notional value and in the number of
    months remaining, and the percentage loss is linear in the number of
    months: scaling the notional by [a] and the months by [k] scales the
    loss by [a * k] and the percentage by [k]. *)
Theorem loss_scales_linearly (n i c s t a k : Q) :
  0 < s ->
  exists v v' p p',
    calculate_stf_losses n i c s t = Ok v /\
    calculate_stf_losses (a * n) i c s (k * t) = Ok v' /\
    calculate_percentage_loss c s t = Ok p /\
    calculate_percentage_loss c s (k * t) = Ok p' /\
    v' == a * k * v /\ p' == k * p.
Proof.
  intros Hs.
  destruct (loss_model_cases n i c s t Hs) as [[Hcs [Hv Hp]]|[Hsc [Hv Hp]]].
  - exists 0, 0, 0, 0.
    split; [exact Hv|].
    split; [apply stf_losses_skips_division; assumption|].
    split; [exact Hp|].
    split; [apply percentage_loss_skips_division; assumption|].
    split; ring.
  - assert (Hc : ~ c == 0) by lra.
    eexists; eexists; eexists; eexists.
    split; [exact Hv|].
    split; [apply stf_losses_loss_regime; assumption|].
    split; [exact Hp|].
    split; [apply percentage_loss_loss_regime; assumption|].
    split; field; assumption.
Qed.

Lemma loss_scales_linearly_witness :
  exists v v' p p',
    calculate_stf_losses 15000000 1.60 2.00 1.65 3 = Ok v /\
    calculate_stf_losses (1 * 15000000) 1.60 2.00 1.65 (2 * 3) = Ok v' /\
    calculate_percentage_loss 2.00 1.65 3 = Ok p /\
    calculate_percentage_loss 2.00 1.65 (2 * 3) = Ok p' /\
    v' == 1 * 2 * v /\ p' == 2 * p.
Proof.
  apply (loss_scales_linearly 15000000 1.60 2.00 1.65 3 1 2). q_order.
Defined.



(** * Further properties of the scenarios *)







(** X5.  The "Typical Pre-2008 Pattern" ignores the initial rate, the
    final rate and the shock month: whatever they are, the rates run from
    2.2 in month 1 down to 1.6 in month 12, strictly decreasing, and the
    table of the section depends on the notional value and the strike
    only. *)
Theorem pre_2008_pattern_ignores_inputs :
  (forall (shock_month shock_month' : Z) (a b a' b' : Q),
     exchange_rates TypicalPre2008Pattern shock_month a b
     = exchange_rates TypicalPre2008Pattern shock_month' a' b') /\
  (forall (shock_month : Z) (a b : Q),
     exists rates,
       exchange_rates TypicalPre2008Pattern shock_month a b = Ok rates /\
       rate_of_month rates 1 == 2.2 /\
       rate_of_month rates 12 == 1.6 /\
       forall i j, (1 <= i)%Z -> (i < j)%Z -> (j <= 12)%Z ->
         rate_of_month rates j < rate_of_month rates i) /\
  (forall (n s a b a' b' : Q) (shock_month shock_month' : Z),
     market_scenario_analysis n s a b TypicalPre2008Pattern shock_month
     = market_scenario_analysis n s a' b' TypicalPre2008Pattern shock_month').
Proof.
  split; [reflexivity|]. split.
  - intros shock_month a b. eexists. split; [reflexivity|].
    split; [reflexivity|]. split; [reflexivity|].
    intros i j Hi Hij Hj.
    assert (Hi' : (1 <= i <= 12)%Z) by lia.
    assert (Hj' : (1 <= j <= 12)%Z) by lia.
    each_month Hi'; each_month Hj'; try lia; reflexivity.
  - intros. reflexivity.
Qed.

Lemma sudden_shock_unfolded (shock_month : Z) (a b : Q) :
  exchange_rates SuddenShock shock_month a b
  = Ok (List.map (fun i => if (i <? shock_month)%Z then a else b)
          [1; 2; 3; 4; 5; 6; 7; 8; 9; 10; 11; 12]%Z).
Proof. reflexivity. Qed.

(** X6.  The "Sudden Shock" path is [shock_month - 1] months at the
    initial rate followed by [13 - shock_month] months at the final rate;
    with the shock in month 1 (or earlier) every month, the first
    included, is at the final rate, and with a shock after month 12 every
    month is at the initial rate. *)
Theorem sudden_shock_path (shock_month : Z) (initial_rate final_rate : Q) :
  ((1 <= shock_month <= 13)%Z ->
   exchange_rates SuddenShock shock_month initial_rate final_rate
   = Ok (repeat initial_rate (Z.to_nat (shock_month - 1))
         ++ repeat final_rate (Z.to_nat (13 - shock_month)))) /\
  ((shock_month <= 1)%Z ->
   exchange_rates SuddenShock shock_month initial_rate final_rate
   = Ok (repeat final_rate 12)) /\
  ((12 < shock_month)%Z ->
   exchange_rates SuddenShock shock_month initial_rate final_rate
   = Ok (repeat initial_rate 12)).
Proof.
  rewrite sudden_shock_unfolded. simpl List.map.
  split; [|split]; intros H.
  - assert (shock_month = 1 \/ shock_month = 2 \/ shock_month = 3 \/
            shock_month = 4 \/ shock_month = 5 \/ shock_month = 6 \/
            shock_month = 7 \/ shock_month = 8 \/ shock_month = 9 \/
            shock_month = 10 \/ shock_month = 11 \/ shock_month = 12 \/
            shock_month = 13)%Z as C by lia.
    repeat (destruct C as [C|C]; [subst shock_month; reflexivity|]).
    subst shock_month; reflexivity.
  - repeat match goal with
           | |- context [(?a <? shock_month)%Z] =>
               destruct (Z.ltb_spec a shock_month); try lia
           end.
    reflexivity.
  - repeat match goal with
           | |- context [(?a <? shock_month)%Z] =>
               destruct (Z.ltb_spec a shock_month); try lia
           end.
    reflexivity.
Qed.

Lemma sudden_shock_path_witness :
  exchange_rates SuddenShock 1 1.60 2.00 = Ok (repeat 2.00 12).
Proof.
  apply (proj1 (proj2 (sudden_shock_path 1 1.60 2.00))). lia.
Defined.

(** * Further properties of the monthly simulation *)

(** The state at the end of the loop, from the losses of the calls. *)
Lemma for_each_from_losses (n i s : Q) (rates losses : list Q) :
  Forall2 (fun rate loss => calculate_stf_losses n i rate s 1 = Ok loss)
          rates losses ->
  forall (idxs : list Z) (st : loop_state),
    length idxs = length rates ->
    for_each (loop_body n i s) st (combine idxs rates)
    = Ok {| monthly_losses_usd :=
              monthly_losses_usd st ++ List.map (fun l => l / 1000000) losses;
            cumulative_losses_usd :=
              fold_left Qplus losses (cumulative_losses_usd st) |}.
Proof.
  induction 1 as [|rate loss rates losses Hloss HF IH]; intros idxs st Hlen.
  - destruct idxs; [|discriminate]. simpl. rewrite app_nil_r.
    destruct st; reflexivity.
  - destruct idxs as [|k idxs]; [discriminate|]. injection Hlen as Hlen.
    change (for_each (loop_body n i s) st
              (combine (k :: idxs) (rate :: rates)))
      with (st' <- loop_body n i s st (k, rate) ;;
            for_each (loop_body n i s) st' (combine idxs rates)).
    rewrite (loop_body_step n i s st k rate loss Hloss).
    unfold bind at 1. rewrite (IH idxs _ Hlen). simpl.
    rewrite <- app_assoc. reflexivity.
Qed.

Lemma monthly_loop_from_losses (n i s : Q) (rates losses : list Q) :
  Forall2 (fun rate loss => calculate_stf_losses n i rate s 1 = Ok loss)
          rates losses ->
  monthly_loop n i s rates
  = Ok {| monthly_losses_usd := List.map (fun l => l / 1000000) losses;
          cumulative_losses_usd := fold_left Qplus losses 0 |}.
Proof.
  intros HF. unfold monthly_loop, enumerate.
  rewrite (for_each_from_losses n i s rates losses HF);
    [reflexivity | now rewrite length_map, length_seq].
Qed.

(** With a positive strike every call of the loop returns. *)
Lemma monthly_losses_exist (n i s : Q) (rates : list Q) :
  0 < s ->
  exists losses,
    Forall2 (fun rate loss => calculate_stf_losses n i rate s 1 = Ok loss)
            rates losses.
Proof.
  intros Hs. induction rates as [|rate rates [losses IH]].
  - exists []. constructor.
  - destruct (stf_losses_returns n i rate s 1 Hs) as [loss Hloss].
    exists (loss :: losses). constructor; assumption.
Qed.

(** On a path that never exceeds the strike every call returns 0. *)
Lemma monthly_losses_zero (n i s : Q) (rates : list Q) :
  Forall (fun rate => rate <= s) rates ->
  Forall2 (fun rate loss => calculate_stf_losses n i rate s 1 = Ok loss)
          rates (repeat 0 (length rates)).
Proof.
  induction 1 as [|rate rates Hrate HF IH]; simpl; constructor.
  - apply stf_losses_skips_division. assumption.
  - exact IH.
Qed.

Lemma stf_loss_nonpos (n i c s t v : Q) :
  0 < s -> 0 <= n -> 0 <= t ->
  calculate_stf_losses n i c s t = Ok v -> v <= 0.
Proof.
  intros Hs Hn Ht Hv.
  destruct (loss_model_cases n i c s t Hs) as [[Hcs [E _]]|[Hsc [E _]]];
    rewrite E in Hv; injection Hv as <-.
  - lra.
  - apply Qdiv_nonpos_pos; [apply loss_brl_nonpos; assumption | lra].
Qed.

Lemma total_cons (x : Q) (xs : list Q) : total (x :: xs) = x + total xs.
Proof. reflexivity. Qed.

Lemma total_firstn_succ (xs : list Q) :
  forall m, (m < length xs)%nat ->
    total (firstn (S m) xs) == total (firstn m xs) + nth m xs 0.
Proof.
  induction xs as [|x xs IH]; intros m Hm; simpl in Hm; [lia|].
  destruct m as [|m].
  - simpl. ring.
  - change (firstn (S (S m)) (x :: xs)) with (x :: firstn (S m) xs).
    change (firstn (S m) (x :: xs)) with (x :: firstn m xs).
    change (nth (S m) (x :: xs) 0) with (nth m xs 0).
    rewrite !total_cons, IH by lia. ring.
Qed.

Lemma total_nonpos (xs : list Q) :
  Forall (fun x => x <= 0) xs -> total xs <= 0.
Proof.
  induction 1 as [|x xs Hx HF IH]; simpl; lra.
Qed.

Lemma total_zero (xs : list Q) :
  Forall (fun x => x == 0) xs -> total xs == 0.
Proof.
  induction 1 as [|x xs Hx HF IH]; simpl; [reflexivity|].
  rewrite Hx, IH. ring.
Qed.

Lemma Forall_at {A : Type} (P : A -> Prop) (xs : list A) (d : A) :
  Forall P xs -> forall m, (m < length xs)%nat -> P (nth m xs d).
Proof.
  induction 1 as [|x xs Hx HF IH]; intros m Hm; simpl in Hm; [lia|].
  destruct m as [|m]; simpl; [assumption | apply IH; lia].
Qed.

(** The losses in millions keep the sign of the losses. *)
Lemma in_millions_nonpos (losses : list Q) :
  Forall (fun l => l <= 0) losses ->
  Forall (fun l => l <= 0) (List.map (fun l => l / 1000000) losses).
Proof.
  induction 1 as [|l losses Hl HF IH]; simpl; constructor; [|exact IH].
  apply Qdiv_nonpos_pos; [assumption | q_order].
Qed.

Lemma analyse_from_losses (n s i : Q) (rates losses : list Q) :
  length rates = 12%nat ->
  Forall2 (fun rate loss => calculate_stf_losses n i rate s 1 = Ok loss)
          rates losses ->
  analyse n s i rates
  = Ok (mk_DataFrame months rates
          (List.map (fun l => l / 1000000) losses)
          (cumsum (List.map (fun l => l / 1000000) losses)),
        fold_left Qplus losses 0 / 1000000).
Proof.
  intros Hlen HF.
  destruct (Forall2_at _ rates losses 0 0 HF) as [Hlen' _].
  unfold analyse. rewrite (monthly_loop_from_losses n i s rates losses HF).
  unfold bind at 1. simpl monthly_losses_usd. simpl cumulative_losses_usd.
  rewrite truediv_nonzero by (unfold Qeq; simpl; lia).
  unfold bind at 1. unfold make_DataFrame.
  rewrite cumsum_length, length_map, <- Hlen', Hlen. reflexivity.
Qed.

Lemma cumsum_from_nonpos (xs : list Q) :
  Forall (fun x => x <= 0) xs ->
  forall acc, acc <= 0 -> Forall (fun x => x <= 0) (cumsum_from acc xs).
Proof.
  induction 1 as [|x xs Hx HF IH]; intros acc Hacc; simpl; constructor.
  - lra.
  - apply IH. lra.
Qed.

Lemma cumsum_nonpos (xs : list Q) :
  Forall (fun x => x <= 0) xs -> Forall (fun x => x <= 0) (cumsum xs).
Proof.
  intros H. destruct H as [|x xs Hx HF]; simpl; constructor;
    [assumption | apply cumsum_from_nonpos; assumption].
Qed.

Lemma cumsum_from_zero (xs : list Q) :
  Forall (fun x => x == 0) xs ->
  forall acc, acc == 0 -> Forall (fun x => x == 0) (cumsum_from acc xs).
Proof.
  induction 1 as [|x xs Hx HF IH]; intros acc Hacc; simpl; constructor.
  - rewrite Hacc, Hx. ring.
  - apply IH. rewrite Hacc, Hx. ring.
Qed.

Lemma cumsum_zero (xs : list Q) :
  Forall (fun x => x == 0) xs -> Forall (fun x => x == 0) (cumsum xs).
Proof.
  intros H. destruct H as [|x xs Hx HF]; simpl; constructor;
    [assumption | apply cumsum_from_zero; assumption].
Qed.

(** Each running sum adds the entry of its position to the previous one. *)
Lemma cumsum_step (xs : list Q) (m : nat) :
  (S m < length xs)%nat ->
  nth (S m) (cumsum xs) 0 == nth m (cumsum xs) 0 + nth (S m) xs 0.
Proof.
  intros Hm.
  rewrite (cumsum_nth xs (S m)) by lia.
  rewrite (cumsum_nth xs m) by lia.
  apply total_firstn_succ. lia.
Qed.

(** X7.  The simulation never reports a gain: for a positive strike and a
    non-negative notional value, on any path of 12 rates, every monthly
    loss is [<= 0], the cumulative loss is [<= 0] and never rises from one
    month to the next, and the total is [<= 0]. *)
Theorem simulation_never_gains (notional_value strike_price initial_rate : Q)
    (rates : list Q) :
  0 < strike_price -> 0 <= notional_value -> length rates = 12%nat ->
  exists df total_millions,
    analyse notional_value strike_price initial_rate rates
    = Ok (df, total_millions) /\
    Forall (fun l => l <= 0) (Monthly_Loss df) /\
    Forall (fun l => l <= 0) (Cumulative_Loss df) /\
    (forall m, (S m < 12)%nat ->
       nth (S m) (Cumulative_Loss df) 0 <= nth m (Cumulative_Loss df) 0) /\
    total_millions <= 0.
Proof.
  intros Hs Hn Hlen.
  destruct (monthly_losses_exist notional_value initial_rate strike_price
              rates Hs) as [losses HF].
  destruct (Forall2_at _ rates losses 0 0 HF) as [Hlen' _].
  assert (Hneg : Forall (fun l => l <= 0) losses).
  { clear Hlen Hlen'. induction HF as [|rate loss rates losses Hl HF IH];
      constructor; [|exact IH].
    apply (stf_loss_nonpos notional_value initial_rate rate strike_price 1);
      [assumption | assumption | q_order | assumption]. }
  pose proof (in_millions_nonpos losses Hneg) as Hmil.
  eexists; eexists.
  split; [apply (analyse_from_losses _ _ _ _ losses Hlen HF)|].
  simpl.
  split; [exact Hmil|]. split; [apply cumsum_nonpos; exact Hmil|].
  split.
  - intros m Hm.
    rewrite cumsum_step by (rewrite length_map; lia).
    assert (nth (S m) (List.map (fun l => l / 1000000) losses) 0 <= 0).
    { apply Forall_at; [exact Hmil | rewrite length_map; lia]. }
    lra.
  - rewrite fold_left_Qplus_total.
    apply Qdiv_nonpos_pos; [|q_order].
    pose proof (total_nonpos losses Hneg). lra.
Qed.

Lemma simulation_never_gains_witness :
  exists df total_millions,
    analyse 15000000 1.65 1.60
      [1.60; 1.60; 1.60; 1.60; 1.60; 2.00; 2.00; 2.00; 2.00; 2.00; 2.00; 2.00]
    = Ok (df, total_millions) /\
    Forall (fun l => l <= 0) (Monthly_Loss df) /\
    Forall (fun l => l <= 0) (Cumulative_Loss df) /\
    (forall m, (S m < 12)%nat ->
       nth (S m) (Cumulative_Loss df) 0 <= nth m (Cumulative_Loss df) 0) /\
    total_millions <= 0.
Proof.
  apply (simulation_never_gains 15000000 1.65 1.60
           [1.60; 1.60; 1.60; 1.60; 1.60;
            2.00; 2.00; 2.00; 2.00; 2.00; 2.00; 2.00]);
    [q_order | q_order | reflexivity].
Defined.

Lemma in_millions_zero (k : nat) :
  Forall (fun l => l == 0) (List.map (fun l => l / 1000000) (repeat 0 k)).
Proof.
  induction k as [|k IH]; simpl; constructor; [reflexivity | exact IH].
Qed.

(** X8.  On a path of 12 rates that never exceeds the strike the section
    returns a table of zeros and a total of zero, for every notional value
    and every strike (zero and negative ones included): no division by a
    rate takes place. *)
Theorem path_without_loss (notional_value strike_price initial_rate : Q)
    (rates : list Q) :
  Forall (fun rate => rate <= strike_price) rates ->
  length rates = 12%nat ->
  exists df total_millions,
    analyse notional_value strike_price initial_rate rates
    = Ok (df, total_millions) /\
    Exchange_Rate df = rates /\
    Forall (fun l => l == 0) (Monthly_Loss df) /\
    Forall (fun l => l == 0) (Cumulative_Loss df) /\
    total_millions == 0.
Proof.
  intros Hle Hlen.
  pose proof (monthly_losses_zero notional_value initial_rate strike_price
                rates Hle) as HF.
  eexists; eexists.
  split; [apply (analyse_from_losses _ _ _ _ _ Hlen HF)|].
  simpl. split; [reflexivity|].
  split; [apply in_millions_zero|].
  split; [apply cumsum_zero, in_millions_zero|].
  rewrite Hlen. reflexivity.
Qed.

Lemma path_without_loss_witness :
  exists df total_millions,
    analyse 15000000 0 1.60 (repeat 0 12) = Ok (df, total_millions) /\
    Exchange_Rate df = repeat 0 12 /\
    Forall (fun l => l == 0) (Monthly_Loss df) /\
    Forall (fun l => l == 0) (Cumulative_Loss df) /\
    total_millions == 0.
Proof.
  apply (path_without_loss 15000000 0 1.60 (repeat 0 12));
    [repeat constructor; q_order | reflexivity].
Defined.

(** * The metrics of the scenario section *)

Lemma lt_iff (x y : Q) : lt x y = true <-> x < y.
Proof.
  unfold lt. split.
  - intros H. apply negb_true_iff in H. apply loss_test_inv. exact H.
  - intros H. apply negb_true_iff. apply loss_test. exact H.
Qed.

Lemma lt_false_iff (x y : Q) : lt x y = false <-> y <= x.
Proof.
  unfold lt. rewrite negb_false_iff. apply Qle_bool_iff.
Qed.

(** [min_from best xs] is [best] or an item of [xs], and is below all of
    them. *)
Lemma min_from_spec (xs : list Q) :
  forall best,
    min_from best xs <= best /\
    Forall (fun x => min_from best xs <= x) xs /\
    (min_from best xs = best \/ In (min_from best xs) xs).
Proof.
  induction xs as [|x xs IH]; intros best; simpl.
  - split; [lra|]. split; [constructor | left; reflexivity].
  - destruct (lt x best) eqn:E.
    + apply lt_iff in E. destruct (IH x) as [H1 [H2 H3]].
      split; [lra|]. split; [constructor; assumption|].
      right. destruct H3 as [H3|H3]; [left; symmetry; exact H3 | right; exact H3].
    + apply lt_false_iff in E. destruct (IH best) as [H1 [H2 H3]].
      split; [assumption|]. split; [constructor; [lra | assumption]|].
      destruct H3 as [H3|H3]; [left; exact H3 | right; right; exact H3].
Qed.

(** [index_from] finds the first item equal to [v] when there is one. *)
Lemma index_from_spec (xs : list Q) (v : Q) :
  In v xs ->
  forall pos,
    exists k,
      index_from pos xs v = Ok (pos + Z.of_nat k)%Z /\
      (k < length xs)%nat /\
      nth k xs 0 == v /\
      forall j, (j < k)%nat -> ~ nth j xs 0 == v.
Proof.
  induction xs as [|x xs IH]; intros Hin pos; [contradiction|].
  simpl index_from. destruct (Qeq_bool x v) eqn:E.
  - exists 0%nat. split; [f_equal; lia|]. split; [simpl; lia|].
    split; [apply Qeq_bool_eq; exact E | intros j Hj; lia].
  - assert (Hne : ~ x == v) by (apply Qeq_bool_neq; exact E).
    destruct Hin as [Hin|Hin]; [subst x; exfalso; apply Hne; reflexivity|].
    destruct (IH Hin (pos + 1)%Z) as [k [Hk [Hlt [Hnth Hfirst]]]].
    exists (S k). split; [rewrite Hk; f_equal; lia|].
    split; [simpl; lia|]. split; [exact Hnth|].
    intros [|j] Hj; [exact Hne | apply Hfirst; lia].
Qed.

(** What [metrics_of] returns on a non-empty list of monthly losses. *)
Lemma metrics_of_spec (n : Q) (st : loop_state) :
  ~ n == 0 -> monthly_losses_usd st <> [] ->
  exists m,
    metrics_of n st = Ok m /\
    total_percent_of_notional m = cumulative_losses_usd st / n * 100 /\
    (1 <= max_loss_month m <= Z.of_nat (length (monthly_losses_usd st)))%Z /\
    nth (Z.to_nat (max_loss_month m - 1)) (monthly_losses_usd st) 0
    == max_monthly_loss m /\
    Forall (fun l => max_monthly_loss m <= l) (monthly_losses_usd st) /\
    (forall j, (1 <= j < max_loss_month m)%Z ->
       max_monthly_loss m < nth (Z.to_nat (j - 1)) (monthly_losses_usd st) 0).
Proof.
  intros Hn Hne. unfold metrics_of. rewrite (truediv_nonzero _ _ Hn).
  unfold bind at 1.
  destruct (monthly_losses_usd st) as [|x xs] eqn:E; [contradiction|].
  simpl min_of. unfold bind at 1.
  destruct (min_from_spec xs x) as [H1 [H2 H3]].
  set (m := min_from x xs) in *.
  assert (Hall : Forall (fun l => m <= l) (x :: xs))
    by (constructor; assumption).
  assert (Hin : In m (x :: xs)).
  { destruct H3 as [H3|H3]; [left; symmetry; exact H3 | right; exact H3]. }
  destruct (index_from_spec (x :: xs) m Hin 0) as [k [Hk [Hlt [Hnth Hfirst]]]].
  unfold index. rewrite Hk. unfold bind.
  eexists. split; [reflexivity|].
  cbn [total_percent_of_notional max_monthly_loss max_loss_month].
  split; [reflexivity|].
  split; [lia|].
  replace (Z.to_nat (0 + Z.of_nat k + 1 - 1)) with k by lia.
  split; [exact Hnth|]. split; [exact Hall|].
  intros j Hj.
  assert (Hj' : (Z.to_nat (j - 1) < k)%nat) by lia.
  pose proof (Hfirst _ Hj') as Hneq.
  assert (Hle : m <= nth (Z.to_nat (j - 1)) (x :: xs) 0).
  { apply (Forall_at _ _ 0 Hall). lia. }
  apply Qle_lteq in Hle. destruct Hle as [Hle|Hle]; [exact Hle|].
  exfalso. apply Hneq. symmetry. exact Hle.
Qed.

(** X9.  The "Maximum Monthly Loss" metric: for a positive strike, a
    non-zero notional value and a non-empty path, the reported loss is the
    smallest entry of the monthly losses (the most negative one), the
    reported month lies on the path and holds that loss, and it is the
    first month that does. *)
Theorem maximum_monthly_loss_found (n s i : Q) (rates : list Q) :
  0 < s -> ~ n == 0 -> rates <> [] ->
  exists st m,
    monthly_loop n i s rates = Ok st /\
    scenario_metrics_of n s i rates = Ok m /\
    (1 <= max_loss_month m <= Z.of_nat (length rates))%Z /\
    nth (Z.to_nat (max_loss_month m - 1)) (monthly_losses_usd st) 0
    == max_monthly_loss m /\
    Forall (fun l => max_monthly_loss m <= l) (monthly_losses_usd st) /\
    (forall j, (1 <= j < max_loss_month m)%Z ->
       max_monthly_loss m < nth (Z.to_nat (j - 1)) (monthly_losses_usd st) 0).
Proof.
  intros Hs Hn Hne.
  destruct (monthly_losses_exist n i s rates Hs) as [losses HF].
  destruct (Forall2_at _ rates losses 0 0 HF) as [Hlen _].
  pose proof (monthly_loop_from_losses n i s rates losses HF) as Hloop.
  set (st := {| monthly_losses_usd := List.map (fun l => l / 1000000) losses;
                cumulative_losses_usd := fold_left Qplus losses 0 |}) in *.
  assert (Hne' : monthly_losses_usd st <> []).
  { simpl. destruct losses; [|discriminate].
    destruct rates; [contradiction | discriminate Hlen]. }
  destruct (metrics_of_spec n st Hn Hne') as [m [Hm [_ [Hmonth [Hat [Hall Hfirst]]]]]].
  exists st, m. split; [exact Hloop|].
  split; [unfold scenario_metrics_of; rewrite Hloop; exact Hm|].
  split; [simpl in Hmonth; rewrite length_map in Hmonth; lia|].
  split; [exact Hat|]. split; [exact Hall | exact Hfirst].
Qed.

Lemma maximum_monthly_loss_found_witness :
  exists st m,
    monthly_loop 15000000 1.60 1.65 [1.60; 2.00; 1.80] = Ok st /\
    scenario_metrics_of 15000000 1.65 1.60 [1.60; 2.00; 1.80] = Ok m /\
    (1 <= max_loss_month m
     <= Z.of_nat (length [1.60%Q; 2.00%Q; 1.80%Q]))%Z /\
    nth (Z.to_nat (max_loss_month m - 1)) (monthly_losses_usd st) 0
    == max_monthly_loss m /\
    Forall (fun l => max_monthly_loss m <= l) (monthly_losses_usd st) /\
    (forall j, (1 <= j < max_loss_month m)%Z ->
       max_monthly_loss m < nth (Z.to_nat (j - 1)) (monthly_losses_usd st) 0).
Proof.
  apply (maximum_monthly_loss_found 15000000 1.65 1.60 [1.60; 2.00; 1.80]);
    [q_order | unfold Qeq; simpl; lia | discriminate].
Defined.

(** The monthly percentage losses, and their sum against the sum of the
    monthly losses. *)
Lemma monthly_percentages (n i s : Q) (rates losses : list Q) :
  0 < s -> ~ n == 0 ->
  Forall2 (fun rate loss => calculate_stf_losses n i rate s 1 = Ok loss)
          rates losses ->
  exists percentages,
    Forall2 (fun rate p => calculate_percentage_loss rate s 1 = Ok p)
            rates percentages /\
    total losses / n * 100 == total percentages.
Proof.
  intros Hs Hn. induction 1 as [|rate loss rates losses Hloss HF [ps [IH1 IH2]]].
  - exists []. split; [constructor|]. simpl. field. exact Hn.
  - destruct (loss_and_percentage n i rate s 1 Hs Hn) as [v [p [Hv [Hp E]]]].
    rewrite Hv in Hloss. injection Hloss as <-.
    exists (p :: ps). split; [constructor; assumption|].
    rewrite !total_cons, <- IH2, E. field. exact Hn.
Qed.

(** X10.  The share of the notional value shown with the "Total Loss"
    metric is the sum, over the months of the path, of the percentage
    losses that [calculate_percentage_loss] gives for one month
    remaining. *)
Theorem total_share_is_sum_of_percentages (n s i : Q) (rates : list Q) :
  0 < s -> ~ n == 0 -> rates <> [] ->
  exists m percentages,
    scenario_metrics_of n s i rates = Ok m /\
    Forall2 (fun rate p => calculate_percentage_loss rate s 1 = Ok p)
            rates percentages /\
    total_percent_of_notional m == total percentages.
Proof.
  intros Hs Hn Hne.
  destruct (monthly_losses_exist n i s rates Hs) as [losses HF].
  destruct (Forall2_at _ rates losses 0 0 HF) as [Hlen _].
  pose proof (monthly_loop_from_losses n i s rates losses HF) as Hloop.
  set (st := {| monthly_losses_usd := List.map (fun l => l / 1000000) losses;
                cumulative_losses_usd := fold_left Qplus losses 0 |}) in *.
  assert (Hne' : monthly_losses_usd st <> []).
  { simpl. destruct losses; [|discriminate].
    destruct rates; [contradiction | discriminate Hlen]. }
  destruct (metrics_of_spec n st Hn Hne') as [m [Hm [Htot _]]].
  destruct (monthly_percentages n i s rates losses Hs Hn HF) as [ps [Hps E]].
  exists m, ps. split; [unfold scenario_metrics_of; rewrite Hloop; exact Hm|].
  split; [exact Hps|].
  rewrite Htot, <- E. simpl cumulative_losses_usd.
  rewrite fold_left_Qplus_total. field. exact Hn.
Qed.

Lemma total_share_is_sum_of_percentages_witness :
  exists m percentages,
    scenario_metrics_of 15000000 1.65 1.60 [1.60; 2.00; 1.80] = Ok m /\
    Forall2 (fun rate p => calculate_percentage_loss rate 1.65 1 = Ok p)
            [1.60; 2.00; 1.80] percentages /\
    total_percent_of_notional m == total percentages.
Proof.
  apply (total_share_is_sum_of_percentages 15000000 1.65 1.60
           [1.60; 2.00; 1.80]);
    [q_order | unfold Qeq; simpl; lia | discriminate].
Defined.

(** X11.  On a non-empty path that never exceeds the strike the metrics
    report a total share of 0, a maximum monthly loss of 0, and month 1 as
    the month of that maximum. *)
Theorem metrics_without_loss (n s i : Q) (rates : list Q) :
  Forall (fun rate => rate <= s) rates -> ~ n == 0 -> rates <> [] ->
  exists m,
    scenario_metrics_of n s i rates = Ok m /\
    total_percent_of_notional m == 0 /\
    max_monthly_loss m == 0 /\
    max_loss_month m = 1%Z.
Proof.
  intros Hle Hn Hne.
  pose proof (monthly_losses_zero n i s rates Hle) as HF.
  pose proof (monthly_loop_from_losses n i s rates _ HF) as Hloop.
  set (losses := repeat 0 (length rates)) in *.
  set (st := {| monthly_losses_usd := List.map (fun l => l / 1000000) losses;
                cumulative_losses_usd := fold_left Qplus losses 0 |}) in *.
  assert (Hzero : Forall (fun l => l == 0) (monthly_losses_usd st))
    by apply in_millions_zero.
  assert (Hne' : monthly_losses_usd st <> []).
  { simpl. subst losses. destruct rates; [contradiction | discriminate]. }
  destruct (metrics_of_spec n st Hn Hne')
    as [m [Hm [Htot [Hmonth [Hat [Hall Hfirst]]]]]].
  exists m. split; [unfold scenario_metrics_of; rewrite Hloop; exact Hm|].
  assert (Hmax : max_monthly_loss m == 0).
  { rewrite <- Hat. apply (Forall_at _ _ 0 Hzero). lia. }
  split; [|split; [exact Hmax|]].
  - rewrite Htot. simpl cumulative_losses_usd.
    rewrite fold_left_Qplus_total.
    assert (E : total losses == 0).
    { subst losses. clear. induction (length rates); simpl;
        [reflexivity | rewrite IHn; reflexivity]. }
    rewrite E. field. exact Hn.
  - destruct (Z.eq_dec (max_loss_month m) 1) as [E|E]; [exact E|].
    exfalso.
    assert (H1 : (1 <= 1 < max_loss_month m)%Z) by lia.
    pose proof (Hfirst 1%Z H1) as Hlt.
    assert (H0 : nth (Z.to_nat (1 - 1)) (monthly_losses_usd st) 0 == 0).
    { apply (Forall_at _ _ 0 Hzero). lia. }
    lra.
Qed.

Lemma metrics_without_loss_witness :
  exists m,
    scenario_metrics_of 15000000 1.65 1.60 [1.60; 1.50; 1.40] = Ok m /\
    total_percent_of_notional m == 0 /\
    max_monthly_loss m == 0 /\
    max_loss_month m = 1%Z.
Proof.
  apply (metrics_without_loss 15000000 1.65 1.60 [1.60; 1.50; 1.40]);
    [repeat constructor; q_order | unfold Qeq; simpl; lia | discriminate].
Defined.

Ltac numerals :=
  repeat match goal with
         | |- context [inject_Z ?z] =>
             let q := eval vm_compute in (inject_Z z) in
             change (inject_Z z) with q
         end.

(** The run of the section on a "Sudden Shock" path, from the one-month
    losses at the two rates. *)
Lemma sudden_shock_run (n s a b loss_a loss_b : Q) (shock_month : Z) :
  (1 <= shock_month <= 12)%Z ->
  calculate_stf_losses n a a s 1 = Ok loss_a ->
  calculate_stf_losses n a b s 1 = Ok loss_b ->
  exists df total_millions,
    shock_month_loss n s a b shock_month = Ok (loss_b / 1000000) /\
    market_scenario_analysis n s a b SuddenShock shock_month
    = Ok (df, total_millions) /\
    total_millions
    == (inject_Z (shock_month - 1) * loss_a
        + inject_Z (13 - shock_month) * loss_b) / 1000000.
Proof.
  intros Hshock Ha Hb.
  each_month Hshock.
  all: eexists; eexists.
  all: unfold shock_month_loss, market_scenario_analysis.
  all: rewrite sudden_shock_unfolded; simpl List.map; unfold bind at 1.
  all: split;
    [erewrite monthly_loop_from_losses
       by (repeat (constructor; [eassumption|]); constructor);
     reflexivity|].
  all: unfold bind at 1.
  all: split;
    [erewrite analyse_from_losses
       by (try reflexivity;
           repeat (constructor; [eassumption|]); constructor);
     reflexivity|].
  all: simpl fold_left; numerals; field.
Qed.

(** X12.  In the "Sudden Shock" scenario, with a positive strike and the
    shock in month 1 to 12, the loss quoted for the month of the shock is
    the one-month loss at the final rate (in millions), and the total loss
    is [shock_month - 1] times the one-month loss at the initial rate plus
    [13 - shock_month] times the one at the final rate; when the initial
    rate does not exceed the strike only the second term remains, so an
    earlier shock gives a proportionally larger total. *)
Theorem sudden_shock_losses (n s a b : Q) (shock_month : Z) :
  0 < s -> (1 <= shock_month <= 12)%Z ->
  exists loss_a loss_b df total_millions,
    calculate_stf_losses n a a s 1 = Ok loss_a /\
    calculate_stf_losses n a b s 1 = Ok loss_b /\
    shock_month_loss n s a b shock_month = Ok (loss_b / 1000000) /\
    market_scenario_analysis n s a b SuddenShock shock_month
    = Ok (df, total_millions) /\
    total_millions
    == (inject_Z (shock_month - 1) * loss_a
        + inject_Z (13 - shock_month) * loss_b) / 1000000 /\
    (a <= s ->
     total_millions == inject_Z (13 - shock_month) * loss_b / 1000000).
Proof.
  intros Hs Hshock.
  destruct (stf_losses_returns n a a s 1 Hs) as [loss_a Ha].
  destruct (stf_losses_returns n a b s 1 Hs) as [loss_b Hb].
  destruct (sudden_shock_run n s a b loss_a loss_b shock_month Hshock Ha Hb)
    as [df [total_millions [Hquote [Hrun Htotal]]]].
  exists loss_a, loss_b, df, total_millions.
  split; [exact Ha|]. split; [exact Hb|]. split; [exact Hquote|].
  split; [exact Hrun|]. split; [exact Htotal|].
  intros Hle.
  pose proof (stf_losses_skips_division n a a s 1 Hle truediv) as E.
  unfold calculate_stf_losses in Ha. rewrite E in Ha.
  injection Ha as <-. rewrite Htotal. field.
Qed.

Lemma sudden_shock_losses_witness :
  exists loss_a loss_b df total_millions,
    calculate_stf_losses 15000000 1.60 1.60 1.65 1 = Ok loss_a /\
    calculate_stf_losses 15000000 1.60 2.00 1.65 1 = Ok loss_b /\
    shock_month_loss 15000000 1.65 1.60 2.00 6 = Ok (loss_b / 1000000) /\
    market_scenario_analysis 15000000 1.65 1.60 2.00 SuddenShock 6
    = Ok (df, total_millions) /\
    total_millions
    == (inject_Z (6 - 1) * loss_a + inject_Z (13 - 6) * loss_b) / 1000000 /\
    (1.60 <= 1.65 ->
     total_millions == inject_Z (13 - 6) * loss_b / 1000000).
Proof.
  apply (sudden_shock_losses 15000000 1.65 1.60 2.00 6); [q_order | lia].
Defined.

(** X21.  The two modes agree on a sudden shock: with a positive strike,
    an initial rate that does not exceed it and the shock in month 1 to
    12, the total loss of the scenario (in USD) is the loss the simulator
    section gives for the final rate with a 12-month contract and
    [shock_month - 1] months elapsed. *)
Theorem sudden_shock_total_is_whole_contract_loss (n s a b : Q)
    (shock_month : Z) :
  0 < s -> a <= s -> (1 <= shock_month <= 12)%Z ->
  exists df total_millions whole,
    market_scenario_analysis n s a b SuddenShock shock_month
    = Ok (df, total_millions) /\
    simulator_section n a s b 12 (shock_month - 1) = Ok whole /\
    total_millions * 1000000 == fst whole.
Proof.
  intros Hs Hle Hshock.
  pose proof (stf_losses_skips_division n a a s 1 Hle truediv) as Ha.
  set (t := inject_Z (12 - (shock_month - 1))).
  assert (Et : t == inject_Z (13 - shock_month)).
  { unfold t. replace (12 - (shock_month - 1))%Z with (13 - shock_month)%Z
      by lia. reflexivity. }
  destruct (loss_model_cases n a b s 1 Hs) as [[Hbs [H1 _]]|[Hsb [H1 _]]];
    destruct (sudden_shock_run n s a b _ _ shock_month Hshock Ha H1)
      as [df [total_millions [_ [Hrun Htotal]]]];
    exists df, total_millions; eexists;
    (split; [exact Hrun|]);
    unfold simulator_section; fold t.
  - unfold calculate_stf_losses.
    rewrite (stf_losses_skips_division n a b s t Hbs truediv).
    rewrite (percentage_loss_skips_division b s t Hbs).
    split; [reflexivity|]. cbn [fst bind]. rewrite Htotal. field.
  - rewrite (stf_losses_loss_regime n a b s t Hsb) by lra.
    rewrite (percentage_loss_loss_regime b s t Hsb) by lra.
    split; [reflexivity|]. cbn [fst bind]. rewrite Htotal, Et. field. lra.
Qed.

Lemma sudden_shock_total_is_whole_contract_loss_witness :
  exists df total_millions whole,
    market_scenario_analysis 15000000 1.65 1.60 2.00 SuddenShock 6
    = Ok (df, total_millions) /\
    simulator_section 15000000 1.60 1.65 2.00 12 (6 - 1) = Ok whole /\
    total_millions * 1000000 == fst whole.
Proof.
  apply (sudden_shock_total_is_whole_contract_loss 15000000 1.65 1.60 2.00 6);
    [q_order | q_order | lia].
Defined.

(** * The displays of the simulator section *)

Lemma stf_losses_returns_at_positive_rate (n i c s t : Q) :
  0 < c -> exists v, calculate_stf_losses n i c s t = Ok v.
Proof.
  intros Hc. destruct (Qlt_le_dec s c) as [Hsc|Hcs].
  - eexists. apply stf_losses_loss_regime; lra.
  - exists 0. apply stf_losses_skips_division. exact Hcs.
Qed.

Lemma percentage_loss_returns_at_positive_rate (c s t : Q) :
  0 < c -> exists p, calculate_percentage_loss c s t = Ok p.
Proof.
  intros Hc. destruct (Qlt_le_dec s c) as [Hsc|Hcs].
  - eexists. apply percentage_loss_loss_regime; lra.
  - exists 0. apply percentage_loss_skips_division. exact Hcs.
Qed.

Lemma inject_Z_nonneg (z : Z) : (0 <= z)%Z -> 0 <= inject_Z z.
Proof. intros H. unfold Qle, inject_Z. simpl. lia. Qed.

Lemma inject_Z_pos (z : Z) : (0 < z)%Z -> 0 < inject_Z z.
Proof. intros H. unfold Qlt, inject_Z. simpl. lia. Qed.

(** What the two metrics computed from the loss show, by the sign of the
    loss. *)
Lemma loss_displays_zero (v n : Q) :
  v == 0 ->
  loss_metric_of v n = Ok NoLoss /\ loss_multiple v n = Ok None.
Proof.
  intros Hv. unfold loss_metric_of, loss_multiple.
  rewrite (Qeq_eq_bool _ _ Hv).
  assert (E : lt v 0 = false) by (apply lt_false_iff; lra).
  rewrite E. split; reflexivity.
Qed.

Lemma loss_displays_negative (v n : Q) :
  v < 0 -> ~ n == 0 ->
  loss_metric_of v n = Ok (LossShown (v / 1000000) (v / n * 100)) /\
  loss_multiple v n = Ok (Some (v / n)).
Proof.
  intros Hv Hn. unfold loss_metric_of, loss_multiple.
  assert (E1 : Qeq_bool v 0 = false).
  { destruct (Qeq_bool v 0) eqn:E; [|reflexivity].
    apply Qeq_bool_eq in E. lra. }
  assert (E2 : lt v 0 = true) by (apply lt_iff; exact Hv).
  rewrite E1, E2.
  rewrite (truediv_nonzero v 1000000) by (unfold Qeq; simpl; lia).
  rewrite (truediv_nonzero v n Hn). split; reflexivity.
Qed.

(** The two metrics are always computed when a zero notional value comes
    with a zero loss. *)
Lemma loss_displays_return (v n : Q) :
  (n == 0 -> v == 0) ->
  exists metric multiple,
    loss_metric_of v n = Ok metric /\ loss_multiple v n = Ok multiple.
Proof.
  intros Hn0. destruct (Qeq_dec v 0) as [E|E].
  - destruct (loss_displays_zero v n E) as [E1 E2].
    eexists; eexists; split; eassumption.
  - assert (Hn : ~ n == 0) by (intros Hn; apply E, Hn0, Hn).
    unfold loss_metric_of, loss_multiple.
    rewrite (truediv_nonzero v 1000000) by (unfold Qeq; simpl; lia).
    rewrite (truediv_nonzero v n Hn).
    destruct (Qeq_bool v 0), (lt v 0); eexists; eexists; split; reflexivity.
Qed.

(** X13.  The "High Risk Exposure" warning of the simulator is never
    shown: for a positive strike and no more months elapsed than the
    contract lasts, the section returns its displays, for every notional
    value and every rate, and the percentage loss it tests against 50 is
    never positive. *)
Theorem high_risk_warning_never_shown (n i s c : Q) (duration elapsed : Z) :
  0 < s -> (elapsed <= duration)%Z ->
  exists d,
    simulator_results n i s c duration elapsed = Ok d /\
    shown_warning d = false.
Proof.
  intros Hs Hel.
  set (t := inject_Z (duration - elapsed)).
  assert (Ht : 0 <= t) by (apply inject_Z_nonneg; lia).
  unfold simulator_results, simulator_section. fold t.
  destruct (loss_model_cases n i c s t Hs) as [[Hcs [Hv Hp]]|[Hsc [Hv Hp]]];
    rewrite Hv, Hp; unfold bind at 1 2 3; cbn [fst snd].
  - destruct (loss_displays_return 0 n) as [metric [multiple [E1 E2]]];
      [reflexivity|].
    rewrite E1, E2. eexists. split; [reflexivity|].
    cbn [shown_warning]. apply lt_false_iff. lra.
  - assert (Hc : 0 < c) by lra.
    destruct (loss_displays_return (n * 2 * t * (s - c) / c) n)
      as [metric [multiple [E1 E2]]].
    { intros Hn. rewrite Hn. field. lra. }
    rewrite E1, E2. eexists. split; [reflexivity|].
    cbn [shown_warning]. apply lt_false_iff.
    assert (2 * t * (s - c) * 100 / c <= 0)
      by (apply Qdiv_nonpos_pos;
          [apply percentage_dividend_nonpos; assumption | assumption]).
    lra.
Qed.

Lemma high_risk_warning_never_shown_witness :
  exists d,
    simulator_results 15000000 1.60 1.65 3.00 12 0 = Ok d /\
    shown_warning d = false.
Proof.
  apply (high_risk_warning_never_shown 15000000 1.60 1.65 3.00 12 0);
    [q_order | lia].
Defined.

(** X14.  The displays of the simulator agree with each other: for a
    positive strike and a positive notional value, "No Loss" and a multiple
    of "0x" are shown together, exactly when the current rate does not
    exceed the strike or no month remains; otherwise the loss is negative,
    and the section shows it in millions, as a share of the notional value
    and as a multiple of it.  The formula line follows the rates alone: at
    the end of the contract, with the rate above the strike, it shows a
    calculation next to "No Loss". *)
Theorem simulator_displays_agree (n i s c : Q) (duration elapsed : Z) :
  0 < s -> 0 < n -> (elapsed <= duration)%Z ->
  exists d,
    simulator_results n i s c duration elapsed = Ok d /\
    (shown_calculation d = true <-> s < c) /\
    (c <= s \/ elapsed = duration ->
     shown_loss d = NoLoss /\ shown_multiple d = None) /\
    (s < c -> (elapsed < duration)%Z ->
     exists v,
       calculate_stf_losses n i c s (inject_Z (duration - elapsed)) = Ok v /\
       v < 0 /\
       shown_loss d = LossShown (v / 1000000) (v / n * 100) /\
       shown_multiple d = Some (v / n)).
Proof.
  intros Hs Hn Hel.
  set (t := inject_Z (duration - elapsed)).
  assert (Ht : 0 <= t) by (apply inject_Z_nonneg; lia).
  assert (Hn0 : ~ n == 0) by lra.
  unfold simulator_results, simulator_section. fold t.
  destruct (loss_model_cases n i c s t Hs) as [[Hcs [Hv Hp]]|[Hsc [Hv Hp]]];
    rewrite Hv, Hp; unfold bind at 1 2 3; cbn [fst snd].
  - destruct (loss_displays_zero 0 n) as [E1 E2]; [reflexivity|].
    rewrite E1, E2. eexists. split; [reflexivity|].
    cbn [shown_calculation shown_loss shown_multiple].
    split; [unfold formula_shows_calculation; rewrite lt_iff; reflexivity|].
    split; [intros _; split; reflexivity|].
    intros Hsc. lra.
  - assert (Hc : 0 < c) by lra.
    destruct (Z.eq_dec elapsed duration) as [Heq|Hneq].
    + assert (Ht0 : t == 0).
      { unfold t. replace (duration - elapsed)%Z with 0%Z by lia.
        reflexivity. }
      destruct (loss_displays_zero (n * 2 * t * (s - c) / c) n) as [E1 E2].
      { rewrite Ht0. field. lra. }
      rewrite E1, E2. eexists. split; [reflexivity|].
      cbn [shown_calculation shown_loss shown_multiple].
      split; [unfold formula_shows_calculation; rewrite lt_iff; reflexivity|].
      split; [intros _; split; reflexivity|].
      intros _ Hlt. lia.
    + assert (Htpos : 0 < t) by (apply inject_Z_pos; lia).
      assert (Hneg : n * 2 * t * (s - c) / c < 0).
      { apply Qdiv_neg_pos; [apply loss_brl_neg; assumption | assumption]. }
      destruct (loss_displays_negative _ n Hneg Hn0) as [E1 E2].
      rewrite E1, E2. eexists. split; [reflexivity|].
      cbn [shown_calculation shown_loss shown_multiple].
      split; [unfold formula_shows_calculation; rewrite lt_iff; reflexivity|].
      split; [intros [Hle|Heq]; [lra | lia]|].
      intros _ _. eexists. split; [reflexivity|].
      split; [exact Hneg|]. split; reflexivity.
Qed.

Lemma simulator_displays_agree_witness :
  exists d,
    simulator_results 15000000 1.60 1.65 2.00 12 12 = Ok d /\
    (shown_calculation d = true <-> 1.65 < 2.00) /\
    (2.00 <= 1.65 \/ 12%Z = 12%Z ->
     shown_loss d = NoLoss /\ shown_multiple d = None) /\
    (1.65 < 2.00 -> (12 < 12)%Z ->
     exists v,
       calculate_stf_losses 15000000 1.60 2.00 1.65 (inject_Z (12 - 12))
       = Ok v /\
       v < 0 /\
       shown_loss d = LossShown (v / 1000000) (v / 15000000 * 100) /\
       shown_multiple d = Some (v / 15000000)).
Proof.
  apply (simulator_displays_agree 15000000 1.60 1.65 2.00 12 12);
    [q_order | q_order | lia].
Defined.

(** X15.  The "Exchange Rate Change" line, for a positive initial rate:
    nothing is shown when the current rate equals the initial one; a
    higher current rate is reported as a depreciation and a lower one as an
    appreciation, in both cases with the positive magnitude
    [|current - initial| / initial * 100]. *)
Theorem exchange_rate_change_direction (current_rate initial_rate : Q) :
  0 < initial_rate ->
  (current_rate == initial_rate ->
   exchange_rate_change current_rate initial_rate = Ok None) /\
  (initial_rate < current_rate ->
   exists magnitude,
     exchange_rate_change current_rate initial_rate
     = Ok (Some (magnitude, "depreciation"%string)) /\
     magnitude == (current_rate - initial_rate) / initial_rate * 100 /\
     0 < magnitude) /\
  (current_rate < initial_rate ->
   exists magnitude,
     exchange_rate_change current_rate initial_rate
     = Ok (Some (magnitude, "appreciation"%string)) /\
     magnitude == (initial_rate - current_rate) / initial_rate * 100 /\
     0 < magnitude).
Proof.
  intros Hi. assert (Hi0 : ~ initial_rate == 0) by lra.
  unfold exchange_rate_change, ne.
  split; [|split]; intros H.
  - rewrite (Qeq_eq_bool _ _ H). reflexivity.
  - assert (E : Qeq_bool current_rate initial_rate = false).
    { destruct (Qeq_bool current_rate initial_rate) eqn:E; [|reflexivity].
      apply Qeq_bool_eq in E. lra. }
    rewrite E. cbn [negb]. rewrite (truediv_nonzero _ _ Hi0).
    unfold bind. cbv zeta.
    assert (Hq : 0 < (current_rate - initial_rate) / initial_rate)
      by (apply Qlt_shift_div_l; lra).
    assert (Hpos : 0 < (current_rate - initial_rate) / initial_rate * 100)
      by lra.
    rewrite (proj2 (lt_iff _ _) Hpos).
    eexists. split; [reflexivity|].
    rewrite Qabs_pos by lra. split; [reflexivity | exact Hpos].
  - assert (E : Qeq_bool current_rate initial_rate = false).
    { destruct (Qeq_bool current_rate initial_rate) eqn:E; [|reflexivity].
      apply Qeq_bool_eq in E. lra. }
    rewrite E. cbn [negb]. rewrite (truediv_nonzero _ _ Hi0).
    unfold bind. cbv zeta.
    assert (Hq : (current_rate - initial_rate) / initial_rate < 0)
      by (apply Qdiv_neg_pos; lra).
    assert (Hneg : (current_rate - initial_rate) / initial_rate * 100 < 0)
      by lra.
    assert (El : lt 0 ((current_rate - initial_rate) / initial_rate * 100)
                 = false) by (apply lt_false_iff; lra).
    rewrite El.
    eexists. split; [reflexivity|].
    rewrite Qabs_neg by lra.
    split; [field; exact Hi0 | lra].
Qed.

Lemma exchange_rate_change_direction_witness :
  exists magnitude,
    exchange_rate_change 2.00 1.60
    = Ok (Some (magnitude, "depreciation"%string)) /\
    magnitude == (2.00 - 1.60) / 1.60 * 100 /\
    0 < magnitude.
Proof.
  apply (proj1 (proj2 (exchange_rate_change_direction 2.00 1.60
                         ltac:(q_order)))).
  q_order.
Defined.

(** * Grids of rates and margins *)

(** A comprehension returns when its function returns on every item. *)
Lemma comprehension_returns {A B : Type} (f : A -> result B) (xs : list A) :
  Forall (fun x => exists y, f x = Ok y) xs ->
  exists ys,
    comprehension f xs = Ok ys /\
    Forall2 (fun x y => f x = Ok y) xs ys.
Proof.
  induction 1 as [|x xs [y Hy] HF [ys [IH1 IH2]]].
  - exists []. split; [reflexivity | constructor].
  - exists (y :: ys). split; [|constructor; assumption].
    simpl. rewrite Hy. unfold bind at 1. rewrite IH1. reflexivity.
Qed.

(** A weighted mean of two positive numbers is positive. *)
Lemma between_positive (a b k d : Q) :
  0 < a -> 0 < b -> 0 < d -> 0 <= k -> k <= d ->
  0 < k * ((b - a) / d) + a.
Proof.
  intros Ha Hb Hd Hk Hkd.
  setoid_replace (k * ((b - a) / d) + a) with (((d - k) * a + k * b) / d)
    by (field; lra).
  apply Qlt_shift_div_l; [assumption|].
  assert (H1 : 0 <= (d - k) * a) by (apply Qmult_le_0_compat; lra).
  assert (H2 : 0 <= k * b) by (apply Qmult_le_0_compat; lra).
  destruct (Qlt_le_dec 0 k) as [Hpos|Hzero].
  - assert (0 < k * b) by (apply Qmult_lt_0_compat; assumption). lra.
  - assert (Hk0 : k == 0) by lra.
    assert (0 < (d - k) * a) by (apply Qmult_lt_0_compat; lra). lra.
Qed.

(** The points of a grid with at least two points. *)
Lemma linspace_points (start stop : Q) (div : nat) :
  linspace start stop (S (S div))
  = List.map
      (fun k => inject_Z (Z.of_nat k)
                * ((stop - start) / inject_Z (Z.of_nat (S div))) + start)
      (seq 0 (S div))
    ++ [stop].
Proof. reflexivity. Qed.

Lemma linspace_length (start stop : Q) (num : nat) :
  length (linspace start stop num) = num.
Proof.
  destruct num as [|[|div]]; [reflexivity | reflexivity|].
  rewrite linspace_points, length_app, length_map, length_seq. simpl. lia.
Qed.

(** Between two positive end points every point of the grid is positive. *)
Lemma linspace_positive (start stop : Q) (num : nat) :
  0 < start -> 0 < stop ->
  Forall (fun x => 0 < x) (linspace start stop num).
Proof.
  intros Ha Hb. destruct num as [|[|div]].
  - constructor.
  - repeat constructor. assumption.
  - rewrite linspace_points. apply Forall_app. split.
    + apply Forall_map. apply Forall_forall. intros k Hk.
      apply in_seq in Hk.
      apply between_positive; try assumption.
      * apply inject_Z_pos. lia.
      * apply inject_Z_nonneg. lia.
      * unfold Qle, inject_Z. simpl. lia.
    + repeat constructor. assumption.
Qed.

Lemma max2_lower_bound (a b : Q) : a <= max2 a b.
Proof.
  unfold max2. destruct (lt a b) eqn:E.
  - apply lt_iff in E. lra.
  - lra.
Qed.

Lemma Forall2_same_length {A B : Type} (R : A -> B -> Prop) (xs : list A)
    (ys : list B) :
  Forall2 R xs ys -> length ys = length xs.
Proof. induction 1; simpl; congruence. Qed.

(** X16.  The data of the loss-profile charts are always computed when the
    current rate is positive: 100 rates, all of them positive (the grid
    starts at 1.0 or above), with one loss and one percentage loss per
    rate, whatever the notional value, the strike and the number of
    months. *)
Theorem loss_profile_returns (n i s c t : Q) :
  0 < c ->
  exists rates losses percentage_losses,
    loss_profile n i s c t = Ok (rates, losses, percentage_losses) /\
    length rates = 100%nat /\
    length losses = 100%nat /\
    length percentage_losses = 100%nat /\
    Forall (fun rate => 0 < rate) rates /\
    Forall2
      (fun rate p => calculate_percentage_loss rate s t = Ok p)
      rates percentage_losses.
Proof.
  intros Hc. unfold loss_profile. cbv zeta.
  set (rates := linspace (max2 1.0 (c * 0.7)) (c * 1.3) 100).
  assert (Hpos : Forall (fun rate => 0 < rate) rates).
  { apply linspace_positive.
    - pose proof (max2_lower_bound 1.0 (c * 0.7)). lra.
    - lra. }
  destruct (comprehension_returns
              (fun rate =>
                 loss <- calculate_stf_losses n i rate s t ;;
                 truediv loss 1000000) rates) as [losses [E1 F1]].
  { eapply Forall_impl; [|exact Hpos]. intros rate Hrate. cbv beta.
    destruct (stf_losses_returns_at_positive_rate n i rate s t Hrate)
      as [v Hv].
    rewrite Hv. unfold bind.
    rewrite truediv_nonzero by (unfold Qeq; simpl; lia).
    eexists. reflexivity. }
  destruct (comprehension_returns
              (fun rate => calculate_percentage_loss rate s t) rates)
    as [ps [E2 F2]].
  { eapply Forall_impl; [|exact Hpos]. intros rate Hrate.
    apply percentage_loss_returns_at_positive_rate. exact Hrate. }
  exists rates, losses, ps.
  rewrite E1. unfold bind at 1. rewrite E2. unfold bind at 1.
  split; [reflexivity|].
  assert (Hlen : length rates = 100%nat) by apply linspace_length.
  split; [exact Hlen|].
  split; [rewrite (Forall2_same_length _ _ _ F1); exact Hlen|].
  split; [rewrite (Forall2_same_length _ _ _ F2); exact Hlen|].
  split; [exact Hpos | exact F2].
Qed.

Lemma loss_profile_returns_witness :
  exists rates losses percentage_losses,
    loss_profile 15000000 1.60 1.65 2.00 6
    = Ok (rates, losses, percentage_losses) /\
    length rates = 100%nat /\
    length losses = 100%nat /\
    length percentage_losses = 100%nat /\
    Forall (fun rate => 0 < rate) rates /\
    Forall2
      (fun rate p => calculate_percentage_loss rate 1.65 6 = Ok p)
      rates percentage_losses.
Proof.
  apply (loss_profile_returns 15000000 1.60 1.65 2.00 6). q_order.
Defined.

(** * Hedging stance and sensitivity *)

Lemma hedge_ratio_positive_optimum (actual optimal : Q) :
  0 < optimal ->
  hedge_ratio actual optimal = Ok (actual * 1000000 / optimal).
Proof.
  intros H. unfold hedge_ratio. cbv zeta.
  rewrite (proj2 (lt_iff _ _) H).
  apply truediv_nonzero. lra.
Qed.

Lemma hedge_ratio_no_optimum (actual optimal : Q) :
  optimal <= 0 -> hedge_ratio actual optimal = Ok 0.
Proof.
  intros H. unfold hedge_ratio. cbv zeta.
  rewrite (proj2 (lt_false_iff _ _) H). reflexivity.
Qed.

Lemma bar_color_is_stance_color (ratio : Q) :
  bar_color ratio = snd (hedging_stance ratio).
Proof.
  unfold bar_color, hedging_stance.
  destruct (lt ratio 0.8), (Qle_bool ratio 1.2), (Qle_bool ratio 2.0);
    reflexivity.
Qed.

(** X17.  The comparison with the actual hedge never fails, and when the
    optimal hedge is zero or negative the ratio is taken to be 0, so the
    position is reported as "Under-hedged", in orange, whatever the actual
    hedge. *)
Theorem no_optimal_hedge_is_under_hedged (actual optimal : Q) :
  (exists r, compare_with_actual actual optimal = Ok r) /\
  (optimal <= 0 ->
   compare_with_actual actual optimal
   = Ok (0, ("Under-hedged", "orange"), "orange")%string).
Proof.
  unfold compare_with_actual. split.
  - destruct (Qlt_le_dec 0 optimal) as [H|H].
    + rewrite (hedge_ratio_positive_optimum _ _ H). eexists. reflexivity.
    + rewrite (hedge_ratio_no_optimum _ _ H). eexists. reflexivity.
  - intros H. rewrite (hedge_ratio_no_optimum _ _ H). reflexivity.
Qed.

Lemma no_optimal_hedge_is_under_hedged_witness :
  compare_with_actual 1000 (-1525000000)
  = Ok (0, ("Under-hedged", "orange"), "orange")%string.
Proof.
  apply (proj2 (no_optimal_hedge_is_under_hedged 1000 (-1525000000))).
  q_order.
Defined.

(** X18.  For a positive optimal hedge the stance is decided by the actual
    hedge (entered in millions) against 0.8, 1.2 and 2 times the optimal
    amount: below 0.8 times it is "Under-hedged"; from 0.8 to 1.2 times,
    both included, "Appropriately hedged"; above 1.2 and up to 2 times
    "Moderately over-hedged"; above 2 times "Significantly over-hedged";
    and the bar always gets the colour of the stance. *)
Theorem hedging_stance_thresholds (actual optimal : Q) :
  0 < optimal ->
  exists ratio stance color,
    compare_with_actual actual optimal = Ok (ratio, (stance, color), color) /\
    ratio * optimal == actual * 1000000 /\
    (actual * 1000000 < 0.8 * optimal ->
     stance = "Under-hedged"%string) /\
    (0.8 * optimal <= actual * 1000000 <= 1.2 * optimal ->
     stance = "Appropriately hedged"%string) /\
    (1.2 * optimal < actual * 1000000 <= 2.0 * optimal ->
     stance = "Moderately over-hedged"%string) /\
    (2.0 * optimal < actual * 1000000 ->
     stance = "Significantly over-hedged (potential speculation)"%string).
Proof.
  intros Hopt. unfold compare_with_actual.
  rewrite (hedge_ratio_positive_optimum _ _ Hopt). unfold bind.
  set (ratio := actual * 1000000 / optimal).
  assert (Hr : ratio * optimal == actual * 1000000)
    by (unfold ratio; field; lra).
  assert (Hlow : forall k, actual * 1000000 < k * optimal -> ratio < k).
  { intros k H. unfold ratio. apply Qlt_shift_div_r; assumption. }
  assert (Hlow' : forall k, actual * 1000000 <= k * optimal -> ratio <= k).
  { intros k H. unfold ratio. apply Qle_shift_div_r; assumption. }
  assert (Hhigh : forall k, k * optimal < actual * 1000000 -> k < ratio).
  { intros k H. unfold ratio. apply Qlt_shift_div_l; assumption. }
  assert (Hhigh' : forall k, k * optimal <= actual * 1000000 -> k <= ratio).
  { intros k H. unfold ratio. apply Qle_shift_div_l; assumption. }
  exists ratio, (fst (hedging_stance ratio)), (snd (hedging_stance ratio)).
  split.
  { rewrite bar_color_is_stance_color.
    destruct (hedging_stance ratio); reflexivity. }
  split; [exact Hr|].
  unfold hedging_stance.
  split; [|split; [|split]].
  - intros H. rewrite (proj2 (lt_iff _ _) (Hlow _ H)). reflexivity.
  - intros [H1 H2].
    rewrite (proj2 (lt_false_iff _ _) (Hhigh' _ H1)).
    rewrite (no_loss_test _ _ (Hlow' _ H2)). reflexivity.
  - intros [H1 H2].
    assert (E1 : lt ratio 0.8 = false).
    { apply lt_false_iff. pose proof (Hhigh _ H1). lra. }
    rewrite E1, (loss_test _ _ (Hhigh _ H1)).
    rewrite (no_loss_test _ _ (Hlow' _ H2)). reflexivity.
  - intros H.
    assert (E1 : lt ratio 0.8 = false).
    { apply lt_false_iff. pose proof (Hhigh _ H). lra. }
    assert (E2 : Qle_bool ratio 1.2 = false).
    { apply loss_test. pose proof (Hhigh _ H). lra. }
    rewrite E1, E2, (loss_test _ _ (Hhigh _ H)). reflexivity.
Qed.

Lemma hedging_stance_thresholds_witness :
  exists ratio stance color,
    compare_with_actual 6300 1300000000 = Ok (ratio, (stance, color), color) /\
    ratio * 1300000000 == 6300 * 1000000 /\
    (6300 * 1000000 < 0.8 * 1300000000 ->
     stance = "Under-hedged"%string) /\
    (0.8 * 1300000000 <= 6300 * 1000000 <= 1.2 * 1300000000 ->
     stance = "Appropriately hedged"%string) /\
    (1.2 * 1300000000 < 6300 * 1000000 <= 2.0 * 1300000000 ->
     stance = "Moderately over-hedged"%string) /\
    (2.0 * 1300000000 < 6300 * 1000000 ->
     stance = "Significantly over-hedged (potential speculation)"%string).
Proof.
  apply (hedging_stance_thresholds 6300 1300000000). q_order.
Defined.

(** The ratio as a function of the margin, for a revenue share above the
    cost share. *)
Lemma ratio_decreasing (h1 h2 r1 r2 : Q) :
  0 < r1 -> r1 < r2 -> h2 < h1 ->
  h1 + (h1 - h2) * (1 / r2 - 1) < h1 + (h1 - h2) * (1 / r1 - 1).
Proof.
  intros H1 H12 Hh.
  assert (E : (h1 + (h1 - h2) * (1 / r1 - 1))
              - (h1 + (h1 - h2) * (1 / r2 - 1))
              == ((h1 - h2) * (r2 - r1)) / (r1 * r2))
    by (field; split; lra).
  assert (Hpos : 0 < ((h1 - h2) * (r2 - r1)) / (r1 * r2)).
  { apply Qlt_shift_div_l.
    - apply Qmult_lt_0_compat; lra.
    - assert (0 < (h1 - h2) * (r2 - r1)) by (apply Qmult_lt_0_compat; lra).
      lra. }
  lra.
Qed.

Lemma ratio_at_least_revenue_share (h1 h2 r : Q) :
  0 < r -> r <= 1 -> h2 <= h1 ->
  h1 <= h1 + (h1 - h2) * (1 / r - 1).
Proof.
  intros Hr Hr1 Hh.
  assert (H1 : 1 <= 1 / r) by (apply Qle_shift_div_l; lra).
  assert (H2 : 0 <= (h1 - h2) * (1 / r - 1))
    by (apply Qmult_le_0_compat; lra).
  lra.
Qed.

(** X19.  The optimal hedge ratio against the profit margin: for positive
    margins and a foreign revenue share above the foreign cost share, a
    lower margin gives a strictly higher ratio (and, for a positive EBIT, a
    strictly higher hedge amount); with equal shares the ratio is the
    revenue share whatever the margin; and for a margin of at most 100%
    the ratio is never below the revenue share. *)
Theorem lower_margin_raises_hedge_ratio (h1 h2 r1 r2 ebit_value : Q) :
  0 < r1 -> r1 < r2 ->
  exists delta1 delta2 hedge1 hedge2,
    optimal_hedge_analysis h1 h2 r1 ebit_value = Ok (delta1, hedge1) /\
    optimal_hedge_analysis h1 h2 r2 ebit_value = Ok (delta2, hedge2) /\
    (h2 < h1 -> delta2 < delta1) /\
    (h2 < h1 -> 0 < ebit_value -> hedge2 < hedge1) /\
    (h1 == h2 -> delta1 == h1 /\ delta2 == h1) /\
    (h2 <= h1 -> r2 <= 1 -> h1 <= delta2 /\ h1 <= delta1).
Proof.
  intros H1 H12.
  assert (Hr1 : ~ r1 == 0) by lra. assert (Hr2 : ~ r2 == 0) by lra.
  unfold optimal_hedge_analysis.
  rewrite (truediv_nonzero 1 r1 Hr1), (truediv_nonzero 1 r2 Hr2).
  unfold bind. cbv zeta.
  eexists; eexists; eexists; eexists.
  split; [reflexivity|]. split; [reflexivity|].
  split; [|split; [|split]].
  - intros Hh. apply ratio_decreasing; assumption.
  - intros Hh He.
    pose proof (ratio_decreasing h1 h2 r1 r2 H1 H12 Hh) as Hd.
    apply Qmult_lt_compat_r; assumption.
  - intros Hh. split; rewrite Hh; ring.
  - intros Hh Hle. split; apply ratio_at_least_revenue_share; lra.
Qed.

Lemma lower_margin_raises_hedge_ratio_witness :
  exists delta1 delta2 hedge1 hedge2,
    optimal_hedge_analysis 0.95 0.25 0.139 500000000 = Ok (delta1, hedge1) /\
    optimal_hedge_analysis 0.95 0.25 0.25 500000000 = Ok (delta2, hedge2) /\
    (0.25 < 0.95 -> delta2 < delta1) /\
    (0.25 < 0.95 -> 0 < 500000000 -> hedge2 < hedge1) /\
    (0.95 == 0.25 -> delta1 == 0.95 /\ delta2 == 0.95) /\
    (0.25 <= 0.95 -> 0.25 <= 1 -> 0.95 <= delta2 /\ 0.95 <= delta1).
Proof.
  apply (lower_margin_raises_hedge_ratio 0.95 0.25 0.139 0.25 500000000);
    q_order.
Defined.

(** The points of a grid are evenly spaced. *)
Lemma linspace_nth (start stop : Q) (div k : nat) :
  (k <= S div)%nat ->
  nth k (linspace start stop (S (S div))) 0
  == inject_Z (Z.of_nat k) * ((stop - start) / inject_Z (Z.of_nat (S div)))
     + start.
Proof.
  intros Hk. rewrite linspace_points.
  assert (Hd : 0 < inject_Z (Z.of_nat (S div))) by (apply inject_Z_pos; lia).
  destruct (Nat.eq_dec k (S div)) as [E|E].
  - subst k. rewrite app_nth2 by (rewrite length_map, length_seq; lia).
    rewrite length_map, length_seq, Nat.sub_diag. simpl nth.
    field. lra.
  - rewrite app_nth1 by (rewrite length_map, length_seq; lia).
    set (f := fun k0 : nat =>
                inject_Z (Z.of_nat k0)
                * ((stop - start) / inject_Z (Z.of_nat (S div))) + start).
    rewrite (nth_indep _ 0 (f 0%nat)) by (rewrite length_map, length_seq; lia).
    rewrite map_nth. rewrite seq_nth by lia. reflexivity.
Qed.

Lemma linspace_increasing (start stop : Q) (div j k : nat) :
  start < stop -> (j < k)%nat -> (k <= S div)%nat ->
  nth j (linspace start stop (S (S div))) 0
  < nth k (linspace start stop (S (S div))) 0.
Proof.
  intros Hab Hjk Hk.
  rewrite (linspace_nth start stop div j) by lia.
  rewrite (linspace_nth start stop div k) by lia.
  assert (Hd : 0 < inject_Z (Z.of_nat (S div))) by (apply inject_Z_pos; lia).
  assert (Hstep : 0 < (stop - start) / inject_Z (Z.of_nat (S div)))
    by (apply Qlt_shift_div_l; lra).
  assert (Hlt : inject_Z (Z.of_nat j) < inject_Z (Z.of_nat k))
    by (unfold Qlt, inject_Z; simpl; lia).
  pose proof (Qmult_lt_compat_r _ _ _ Hstep Hlt). lra.
Qed.

(** X20.  The sensitivity chart is always computed: its 100 margins run
    from 5% to 50%, none of them zero, so no division fails, whatever the
    two shares; and for a revenue share above the cost share the ratios
    fall strictly along the chart, from [h1 + 19 * (h1 - h2)] at a margin
    of 5% to [h1 + (h1 - h2)] at 50%. *)
Theorem sensitivity_chart (h1 h2 : Q) :
  exists margins deltas,
    sensitivity_analysis h1 h2 = Ok (margins, deltas) /\
    length margins = 100%nat /\
    length deltas = 100%nat /\
    Forall (fun margin => 0 < margin) margins /\
    nth 0 margins 0 == 0.05 /\ nth 99 margins 0 == 0.5 /\
    nth 0 deltas 0 == h1 + 19 * (h1 - h2) /\
    nth 99 deltas 0 == h1 + (h1 - h2) /\
    (h2 < h1 ->
     forall j k, (j < k)%nat -> (k < 100)%nat ->
       nth k deltas 0 < nth j deltas 0).
Proof.
  unfold sensitivity_analysis. cbv zeta.
  set (margins := linspace 0.05 0.5 100).
  set (f := fun margin =>
              inv_margin <- truediv 1 margin ;;
              Ok (h1 + (h1 - h2) * (inv_margin - 1))).
  assert (Hpos : Forall (fun margin => 0 < margin) margins)
    by (apply linspace_positive; q_order).
  assert (Hf : forall margin, 0 < margin ->
            f margin = Ok (h1 + (h1 - h2) * (1 / margin - 1))).
  { intros margin Hm. unfold f.
    rewrite truediv_nonzero by lra. reflexivity. }
  destruct (comprehension_returns f margins) as [deltas [E F]].
  { eapply Forall_impl; [|exact Hpos]. intros margin Hm. cbv beta.
    rewrite (Hf margin Hm). eexists. reflexivity. }
  assert (Hlen : length margins = 100%nat) by apply linspace_length.
  assert (Hat : forall j, (j < 100)%nat ->
            0 < nth j margins 0 /\
            nth j deltas 0
            = h1 + (h1 - h2) * (1 / nth j margins 0 - 1)).
  { intros j Hj.
    assert (Hm : 0 < nth j margins 0)
      by (apply (Forall_at _ _ 0 Hpos); lia).
    split; [exact Hm|].
    destruct (Forall2_at _ margins deltas 0 0 F) as [_ Hnth].
    specialize (Hnth j ltac:(lia)). cbv beta in Hnth.
    rewrite (Hf _ Hm) in Hnth. injection Hnth as Hnth.
    symmetry. exact Hnth. }
  assert (H0 : nth 0 margins 0 == 0.05) by reflexivity.
  assert (H99 : nth 99 margins 0 == 0.5) by reflexivity.
  exists margins, deltas. rewrite E. unfold bind.
  split; [reflexivity|]. split; [exact Hlen|].
  split; [rewrite (Forall2_same_length _ _ _ F); exact Hlen|].
  split; [exact Hpos|]. split; [exact H0|]. split; [exact H99|].
  split; [|split].
  - destruct (Hat 0%nat ltac:(lia)) as [_ ->]. rewrite H0. field.
  - destruct (Hat 99%nat ltac:(lia)) as [_ ->]. rewrite H99. field.
  - intros Hh j k Hjk Hk.
    destruct (Hat j ltac:(lia)) as [Hmj ->].
    destruct (Hat k ltac:(lia)) as [Hmk ->].
    apply ratio_decreasing; [exact Hmj | | exact Hh].
    apply (linspace_increasing 0.05 0.5 98 j k); [q_order | lia | lia].
Qed.

(** * Scenarios against the strike *)




(** X23.  In the "2008 Crisis Pattern", with a positive strike and an
    initial rate that does not exceed it, the first eight months carry no
    loss (monthly or cumulative): the whole loss of the scenario is the sum
    of the losses of months 9 to 12. *)
Theorem crisis_pattern_loses_after_month_8 (n s a b : Q) (shock_month : Z) :
  0 < s -> a <= s ->
  exists df total_millions,
    market_scenario_analysis n s a b CrisisPattern2008 shock_month
    = Ok (df, total_millions) /\
    (forall m, (m < 8)%nat ->
       nth m (Monthly_Loss df) 0 == 0 /\
       nth m (Cumulative_Loss df) 0 == 0) /\
    total_millions
    == nth 8 (Monthly_Loss df) 0 + nth 9 (Monthly_Loss df) 0
       + nth 10 (Monthly_Loss df) 0 + nth 11 (Monthly_Loss df) 0.
Proof.
  intros Hs Ha.
  assert (Hpre : forall k, 0 <= k ->
            calculate_stf_losses n a (a - 0.02 * k) s 1 = Ok 0).
  { intros k Hk. apply stf_losses_skips_division.
    assert (0 <= 0.02 * k) by (apply Qmult_le_0_compat; [q_order | exact Hk]).
    lra. }
  destruct (stf_losses_returns n a
              (a + (b - a) * inject_Z (9 - 8) / inject_Z (12 - 8)) s 1 Hs)
    as [l9 H9].
  destruct (stf_losses_returns n a
              (a + (b - a) * inject_Z (10 - 8) / inject_Z (12 - 8)) s 1 Hs)
    as [l10 H10].
  destruct (stf_losses_returns n a
              (a + (b - a) * inject_Z (11 - 8) / inject_Z (12 - 8)) s 1 Hs)
    as [l11 H11].
  destruct (stf_losses_returns n a
              (a + (b - a) * inject_Z (12 - 8) / inject_Z (12 - 8)) s 1 Hs)
    as [l12 H12].
  eexists; eexists. split.
  { unfold market_scenario_analysis. rewrite crisis_pattern_unfolded.
    unfold bind at 1.
    apply (analyse_from_losses n s a _
             [0; 0; 0; 0; 0; 0; 0; 0; l9; l10; l11; l12]);
      [reflexivity|].
    repeat (constructor; [first [assumption | apply Hpre; q_order]|]).
    constructor. }
  cbn [Monthly_Loss Cumulative_Loss].
  split.
  - intros m Hm.
    do 8 (destruct m as [|m]; [split; simpl; field|]). lia.
  - simpl. field.
Qed.

Lemma crisis_pattern_loses_after_month_8_witness :
  exists df total_millions,
    market_scenario_analysis 15000000 1.65 1.60 2.00 CrisisPattern2008 6
    = Ok (df, total_millions) /\
    (forall m, (m < 8)%nat ->
       nth m (Monthly_Loss df) 0 == 0 /\
       nth m (Cumulative_Loss df) 0 == 0) /\
    total_millions
    == nth 8 (Monthly_Loss df) 0 + nth 9 (Monthly_Loss df) 0
       + nth 10 (Monthly_Loss df) 0 + nth 11 (Monthly_Loss df) 0.
Proof.
  apply (crisis_pattern_loses_after_month_8 15000000 1.65 1.60 2.00 6);
    q_order.
Defined.

Lemma market_scenario_table_witness :
  exists rates df total_millions,
    exchange_rates CrisisPattern2008 6 1.60 2.00 = Ok rates /\
    market_scenario_analysis 15000000 1.65 1.60 2.00 CrisisPattern2008 6
    = Ok (df, total_millions) /\
    length (rows df) = 12%nat /\
    List.map (fun row => fst (fst row)) (rows df) = combine months rates.
Proof.
  apply (market_scenario_table 15000000 1.65 1.60 2.00 CrisisPattern2008 6).
  q_order.
Defined.
